(** * federal-gov-rss: the CSV-to-RSS converter of [main.go]

    A shallow embedding of [main.go] (package main): the date parser
    [parseDate], the record mapper [fromRecord], the feed builder
    [fromCSV], the cache publisher [refresh] and the handler
    [ServeHTTP], together with models of the standard-library pieces
    they call (encoding/csv's reader, encoding/xml's marshaller, the
    [% x] verb of fmt).  Package time and crypto/sha1 are kept
    abstract behind interfaces.

    Go strings and byte slices are sequences of bytes; they are
    modelled by [string], whose characters are the 256 byte values. *)

From Stdlib Require Import List String Ascii ZArith Lia Bool Arith.
Import ListNotations.
Open Scope string_scope.
Open Scope list_scope.


(* ================================================================== *)
(** ** Constants of [main.go] *)

Definition Title : string := "Federal Government 2017".
Definition Desc : string := "Summaries of events from the US Government.".
Definition URL : string := "http://jlord.us/federal-gov/".
Definition NumEntries : Z := 20.

(** The layouts of package time that [main.go] names. *)
Module time.
Definition RFC3339 : string := "2006-01-02T15:04:05Z07:00".
Definition RFC3339Nano : string := "2006-01-02T15:04:05.999999999Z07:00".
Definition Stamp : string := "Jan _2 15:04:05".
Definition RFC822 : string := "02 Jan 06 15:04 MST".
Definition RFC822Z : string := "02 Jan 06 15:04 -0700".
Definition RFC1123Z : string := "Mon, 02 Jan 2006 15:04:05 -0700".
End time.

(* ================================================================== *)
(** ** Data model *)

(** [type item struct].  The [XMLName] field is never assigned by the
    program and only carries the element name ["item"] in its tag; the
    marshaller below writes that name directly. *)
Record item : Type := mkItem {
  item_Title : string;
  item_Link : string;
  item_Description : string;
  item_PubDate : string;
  item_Category : string
}.

(** [new(item)]: every field is the zero value. *)
Definition new_item : item := mkItem "" "" "" "" "".

(** [type channel struct]; [Items []*item] holds pointers to items that
    are each allocated once and never shared, so a list of values. *)
Record channel : Type := mkChannel {
  channel_Title : string;
  channel_Link : string;
  channel_Description : string;
  channel_Items : list item
}.

(** [type rss struct]; [Channel *channel] is [None] for the nil pointer. *)
Record rss : Type := mkRss {
  rss_Version : string;
  rss_Channel : option channel
}.

(** [new(rss)]. *)
Definition new_rss : rss := mkRss "" None.

(** Go's [int] on a 64-bit platform: a [Z] kept in range by wrapping. *)
Definition wrap64 (z : Z) : Z := ((z + 2 ^ 63) mod 2 ^ 64 - 2 ^ 63)%Z.

Definition len {A : Type} (l : list A) : Z := Z.of_nat (List.length l).

(** [strings.Join(elems, sep)]. *)
Definition strings_Join (elems : list string) (sep : string) : string :=
  String.concat sep elems.

(* ================================================================== *)
(** ** Package time, as an interface

    [main.go] uses four operations of package time.  The wall clock is
    an effect: [time_Now n] is the value of the [n]-th call of
    [time.Now()], and the number of calls made so far is threaded
    through the code as a [nat]. *)

Class TimePkg : Type := {
  Time : Type;
  (** [time.Parse(layout, value)]: [Some p] when [err == nil]. *)
  time_Parse : string -> string -> option Time;
  (** [t.UTC()]. *)
  Time_UTC : Time -> Time;
  (** [t.Format(layout)]. *)
  Time_Format : Time -> string -> string;
  (** Successive readings of [time.Now()]. *)
  time_Now : nat -> Time
}.

Section Mapper.
Context {TP : TimePkg}.

(** The layouts [parseDate] ranges over, in order. *)
Definition parseDate_layouts : list string :=
  [ time.RFC3339; time.RFC3339Nano; time.Stamp;
    time.RFC822; time.RFC822Z; "1/2/2006"; "01/02/2006" ].

(** The [for _, x := range ...] loop of [parseDate]: [Some] at the
    first [return p.UTC()], [None] when the loop falls through. *)
Fixpoint parseDate_range (layouts : list string) (s : string) : option Time :=
  match layouts with
  | [] => None
  | x :: rest =>
      match time_Parse x s with
      | Some p => Some (Time_UTC p)
      | None => parseDate_range rest s
      end
  end.

(** [func parseDate(s string) time.Time], with the clock counter. *)
Definition parseDate (s : string) (tick : nat) : Time * nat :=
  match parseDate_range parseDate_layouts s with
  | Some t => (t, tick)
  | None => (Time_UTC (time_Now tick), S tick)
  end.

(** The closure [get] of [fromRecord]. *)
Definition get (fields : list string) (i : nat) : string :=
  if (Z.of_nat i <? len fields)%Z then nth i fields "" else "".

(** The state the loop of [fromRecord] updates: the item [e] behind
    the receiver, the local [cats] and the clock counter. *)
Record mapper_state : Type := mkMapper {
  ms_item : item;
  ms_cats : list string;
  ms_tick : nat
}.

(** One iteration of [for i, h := range headers]: the [switch h]. *)
Definition fromRecord_body (fields : list string) (st : mapper_state)
           (i : nat) (h : string) : mapper_state :=
  let e := ms_item st in
  if h =? "date" then
    let d := parseDate (get fields i) (ms_tick st) in
    mkMapper (mkItem (item_Title e) (item_Link e) (item_Description e)
                     (Time_Format (fst d) time.RFC1123Z) (item_Category e))
             (ms_cats st) (snd d)
  else if h =? "description" then
    mkMapper (mkItem (get fields i) (item_Link e) (item_Description e)
                     (item_PubDate e) (item_Category e))
             (ms_cats st) (ms_tick st)
  else if h =? "article" then
    mkMapper (mkItem (item_Title e) (get fields i) (item_Description e)
                     (item_PubDate e) (item_Category e))
             (ms_cats st) (ms_tick st)
  else if (h =? "activity") || (h =? "branch") then
    mkMapper e (ms_cats st ++ [get fields i]) (ms_tick st)
  else if h =? "detail" then
    mkMapper (mkItem (item_Title e) (item_Link e) (get fields i)
                     (item_PubDate e) (item_Category e))
             (ms_cats st) (ms_tick st)
  else st.

(** The loop over [headers], from index [i] on. *)
Fixpoint fromRecord_range (i : nat) (headers fields : list string)
         (st : mapper_state) : mapper_state :=
  match headers with
  | [] => st
  | h :: hs => fromRecord_range (S i) hs fields (fromRecord_body fields st i h)
  end.

(** [func (e *item) fromRecord(headers, fields []string)]: the item
    after the call and the clock counter. *)
Definition fromRecord (e : item) (headers fields : list string)
           (tick : nat) : item * nat :=
  let st := fromRecord_range 0 headers fields (mkMapper e [] tick) in
  let e' := ms_item st in
  (mkItem (item_Title e') (item_Link e') (item_Description e')
          (item_PubDate e') (strings_Join (ms_cats st) ","),
   ms_tick st).

End Mapper.


(* ================================================================== *)
(** ** encoding/csv: [csv.NewReader(r).ReadAll()]

    The reader is used with its default settings: comma [','], no
    comment character, [LazyQuotes] and [TrimLeadingSpace] off, and
    [FieldsPerRecord] initially 0.  Error values keep their kind; the
    line and column a [ParseError] carries are left out. *)

Inductive csv_error : Type :=
| ErrBareQuote    (* bare quote in a non-quoted field *)
| ErrQuote        (* extraneous or missing quote in a quoted field *)
| ErrFieldCount.  (* wrong number of fields *)

Definition ch_nl : ascii := "010"%char.
Definition ch_cr : ascii := "013"%char.
Definition ch_quote : ascii := "034"%char.
Definition ch_comma : ascii := ","%char.

(** What the successive calls of [Reader.readLine] deliver, glued
    together: a ["\r\n"] at the end of a line becomes ["\n"], and a
    ["\r"] that ends the input is dropped. *)
Fixpoint csv_normalize (s : string) : string :=
  match s with
  | EmptyString => EmptyString
  | String c t =>
      if (c =? ch_cr)%char then
        match t with
        | EmptyString => EmptyString
        | String c' _ =>
            if (c' =? ch_nl)%char then csv_normalize t
            else String c (csv_normalize t)
        end
      else String c (csv_normalize t)
  end.

(** Where the field parser of [Reader.readRecord] stands. *)
Inductive csv_mode : Type :=
| RecordStart  (* before a line: empty lines are skipped *)
| FieldStart   (* after a comma *)
| Unquoted     (* inside a non-quoted field *)
| Quoted       (* inside a quoted field *)
| QuoteSeen.   (* just after a quote inside a quoted field *)

Definition snoc_char (buf : string) (c : ascii) : string :=
  (buf ++ String c EmptyString)%string.

(** What the field parser of [readRecord] does with the next byte. *)
Inductive csv_action : Type :=
| SkipLine               (* an empty line before a record *)
| OpenQuote              (* the quote that opens a quoted field *)
| CloseQuote             (* a quote inside a quoted field *)
| Append                 (* the byte belongs to the field *)
| EndField (m : csv_mode)  (* the field is complete, the record goes on *)
| EndRecord              (* the field and the record are complete *)
| Fail (e : csv_error).

(** A byte of a non-quoted field: up to the comma or the end of the
    line, and no quote may appear in it. *)
Definition csv_unquoted (c : ascii) : csv_action :=
  if (c =? ch_comma)%char then EndField FieldStart
  else if (c =? ch_nl)%char then EndRecord
  else if (c =? ch_quote)%char then Fail ErrBareQuote
  else Append.

Definition csv_step (m : csv_mode) (c : ascii) : csv_action :=
  match m with
  | RecordStart =>
      if (c =? ch_nl)%char then SkipLine
      else if (c =? ch_quote)%char then OpenQuote
      else csv_unquoted c
  | FieldStart =>
      if (c =? ch_quote)%char then OpenQuote else csv_unquoted c
  | Unquoted => csv_unquoted c
  | Quoted =>
      if (c =? ch_quote)%char then CloseQuote else Append
  | QuoteSeen =>
      if (c =? ch_quote)%char then Append           (* a doubled quote *)
      else if (c =? ch_comma)%char then EndField FieldStart
      else if (c =? ch_nl)%char then EndRecord
      else Fail ErrQuote
  end.

(** The mode after a byte was appended to the field. *)
Definition csv_inside (m : csv_mode) : csv_mode :=
  match m with
  | Quoted | QuoteSeen => Quoted
  | _ => Unquoted
  end.

(** The field parser of [readRecord], run over the whole (normalized)
    input: the records in the order successive calls return them, and
    how the sequence ends, [None] for [io.EOF] and [Some e] for a
    [ParseError].  [fields] are the fields of the current record so
    far and [buf] the bytes of the current field. *)
Fixpoint csv_scan (m : csv_mode) (fields : list string) (buf : string)
         (s : string) : list (list string) * option csv_error :=
  match s with
  | EmptyString =>
      match m with
      | RecordStart => ([], None)
      | Quoted => ([], Some ErrQuote)
      | FieldStart | Unquoted | QuoteSeen => ([fields ++ [buf]], None)
      end
  | String c t =>
      match csv_step m c with
      | SkipLine => csv_scan RecordStart [] "" t
      | OpenQuote => csv_scan Quoted fields buf t
      | CloseQuote => csv_scan QuoteSeen fields buf t
      | Append => csv_scan (csv_inside m) fields (snoc_char buf c) t
      | EndField m' => csv_scan m' (fields ++ [buf]) "" t
      | EndRecord =>
          let '(more, e) := csv_scan RecordStart [] "" t in
          ((fields ++ [buf]) :: more, e)
      | Fail e => ([], Some e)
      end
  end.

(** The end of [readRecord], "check or update the expected fields per
    record": the new value of [r.FieldsPerRecord], and whether the
    record is refused. *)
Definition csv_checkFields (FieldsPerRecord : Z) (record : list string)
  : Z * option csv_error :=
  if (FieldsPerRecord >? 0)%Z then
    if negb (len record =? FieldsPerRecord)%Z
    then (FieldsPerRecord, Some ErrFieldCount)
    else (FieldsPerRecord, None)
  else if (FieldsPerRecord =? 0)%Z then (len record, None)
  else (FieldsPerRecord, None).

(** The loop of [Reader.ReadAll] over the results of [readRecord]:
    [parsed] are the records still to come and [final] how they end. *)
Fixpoint csv_ReadAll_loop (FieldsPerRecord : Z) (parsed : list (list string))
         (final : option csv_error) (records : list (list string))
  : list (list string) * option csv_error :=
  match parsed with
  | [] =>
      match final with
      | None => (records, None)        (* err == io.EOF *)
      | Some e => ([], Some e)
      end
  | record :: parsed' =>
      match csv_checkFields FieldsPerRecord record with
      | (_, Some e) => ([], Some e)
      | (fpr, None) => csv_ReadAll_loop fpr parsed' final (records ++ [record])
      end
  end.

(** Modelled from the spec: the CSV parser of the feed builder ("parse
    all rows"), which is [ReadAll] of Go's encoding/csv and not part of
    the sources.  The model follows that package's reader, here for a
    reader whose [FieldsPerRecord] is [fpr]: a positive value is checked
    against every record, 0 takes the length of the first record, a
    negative value switches the check off. *)
Definition csv_ReadAll_with (fpr : Z) (r : string)
  : list (list string) * option csv_error :=
  let '(parsed, final) := csv_scan RecordStart [] "" (csv_normalize r) in
  csv_ReadAll_loop fpr parsed final [].

(** [csv.NewReader(r).ReadAll()]. *)
Definition csv_ReadAll (r : string) : list (list string) * option csv_error :=
  csv_ReadAll_with 0 r.

(* ================================================================== *)
(** ** The feed builder *)

(** Go's [error] values that [fromCSV] can return. *)
Inductive error : Type :=
| csv_ParseError (e : csv_error)
| errors_New (text : string).

(** How a call of [fromCSV] ends: it returns, leaving the receiver
    [rs] and the clock counter as given, or it panics. *)
Inductive outcome : Type :=
| Returned (err : option error) (rs : rss) (tick : nat)
| Panicked (msg : string).

Section Builder.
Context {TP : TimePkg}.

(** [for i := len(records) - 1; i > start; i-- { ... }], entered with
    the current [i].  [start] is at least 1 where the loop is used, so
    the test fails at [i = 0] at the latest. *)
Fixpoint fromCSV_loop (i : nat) (start : Z) (headers : list string)
         (records : list (list string)) (out : list item) (tick : nat)
  : list item * nat :=
  if (Z.of_nat i >? start)%Z then
    let '(e, tick') := fromRecord new_item headers (nth i records []) tick in
    match i with
    | O => (out ++ [e], tick')
    | S j => fromCSV_loop j start headers records (out ++ [e]) tick'
    end
  else (out, tick).

(** [func (rs *rss) fromCSV(r io.Reader, maxRecords int) error]. *)
Definition fromCSV (rs : rss) (r : string) (maxRecords : Z) (tick : nat)
  : outcome :=
  match csv_ReadAll r with
  | (_, Some err) => Returned (Some (csv_ParseError err)) rs tick
  | (records, None) =>
      if (len records <=? 1)%Z then
        Returned (Some (errors_New "no records")) rs tick
      else
        let headers := nth 0 records [] in
        let start := wrap64 (len records - maxRecords) in
        let start := if (start <=? 0)%Z then 1%Z else start in
        (* make([]*item, 0, len(records)-start) *)
        if (wrap64 (len records - start) <? 0)%Z then
          Panicked "makeslice: cap out of range"
        else
          let '(out, tick') :=
            fromCSV_loop (List.length records - 1) start headers records [] tick in
          Returned None (mkRss "2.0" (Some (mkChannel Title URL Desc out))) tick'
  end.

End Builder.


(* ================================================================== *)
(** ** A reference instance of the time interface

    Instants are whole seconds since the Unix epoch, read in UTC, so
    [UTC] changes nothing.  [Format] implements the layout
    [time.RFC1123Z], the one the program formats with, for years 0 to
    9999; [Parse] implements the two
    slash layouts, ["1/2/2006"] and ["01/02/2006"], and answers the
    five other layouts of [parseDate] with an error, which is what
    package time does for the empty string and for dates written
    M/D/YYYY.  The instance serves to run the code on sample rows. *)

Module UnixTime.

Definition is_digit (c : ascii) : bool :=
  ((48 <=? nat_of_ascii c) && (nat_of_ascii c <=? 57))%nat.

Definition digit_val (c : ascii) : Z := Z.of_nat (nat_of_ascii c - 48).

(** [getnum(s, fixed)] of package time: one or two leading digits, two
    exactly when [fixed]; the number and the rest. *)
Definition getnum (s : string) (fixed : bool) : option (Z * string) :=
  match s with
  | String a (String b t) =>
      if is_digit a then
        if is_digit b then Some (digit_val a * 10 + digit_val b, t)%Z
        else if fixed then None else Some (digit_val a, String b t)
      else None
  | String a EmptyString =>
      if is_digit a && negb fixed then Some (digit_val a, EmptyString) else None
  | EmptyString => None
  end.

(** The year of the layout element ["2006"]: exactly four digits. *)
Definition get_year (s : string) : option (Z * string) :=
  match s with
  | String a (String b (String c (String d t))) =>
      if is_digit a && is_digit b && is_digit c && is_digit d then
        Some (((digit_val a * 10 + digit_val b) * 10 + digit_val c) * 10
              + digit_val d, t)%Z
      else None
  | _ => None
  end.

Definition expect_slash (s : string) : option string :=
  match s with
  | String c t => if (c =? "/")%char then Some t else None
  | EmptyString => None
  end.

Definition is_leap (y : Z) : bool :=
  ((y mod 4 =? 0) && (negb (y mod 100 =? 0) || (y mod 400 =? 0)))%Z.

Definition days_in (m y : Z) : Z :=
  if (m =? 2)%Z then (if is_leap y then 29 else 28)%Z
  else if ((m =? 4) || (m =? 6) || (m =? 9) || (m =? 11))%Z then 30%Z
  else 31%Z.

(** Days from 1970-01-01 to the civil date [y]-[m]-[d]. *)
Definition days_from_civil (y m d : Z) : Z :=
  (let y := if m <=? 2 then y - 1 else y in
   let era := y / 400 in
   let yoe := y - era * 400 in
   let doy := (153 * (if m >? 2 then m - 3 else m + 9) + 2) / 5 + d - 1 in
   let doe := yoe * 365 + yoe / 4 - yoe / 100 + doy in
   era * 146097 + doe - 719468)%Z.

(** The civil date of a day number: year, month, day. *)
Definition civil_from_days (z : Z) : Z * Z * Z :=
  (let z := z + 719468 in
   let era := z / 146097 in
   let doe := z - era * 146097 in
   let yoe := (doe - doe / 1460 + doe / 36524 - doe / 146096) / 365 in
   let y := yoe + era * 400 in
   let doy := doe - (365 * yoe + yoe / 4 - yoe / 100) in
   let mp := (5 * doy + 2) / 153 in
   let d := doy - (153 * mp + 2) / 5 + 1 in
   let m := if mp <? 10 then mp + 3 else mp - 9 in
   (if m <=? 2 then y + 1 else y, m, d))%Z.

(** [time.Parse] under ["1/2/2006"] ([fixed] off) or ["01/02/2006"]
    ([fixed] on). *)
Definition parse_slash (fixed : bool) (value : string) : option Z :=
  match getnum value fixed with
  | None => None
  | Some (month, v1) =>
  match expect_slash v1 with
  | None => None
  | Some v2 =>
  match getnum v2 fixed with
  | None => None
  | Some (day, v3) =>
  match expect_slash v3 with
  | None => None
  | Some v4 =>
  match get_year v4 with
  | Some (year, EmptyString) =>
      if ((1 <=? month) && (month <=? 12) && (1 <=? day)
          && (day <=? days_in month year))%Z
      then Some (days_from_civil year month day * 86400)%Z
      else None
  | _ => None
  end end end end end.

Definition Parse (layout value : string) : option Z :=
  if layout =? "1/2/2006" then parse_slash false value
  else if layout =? "01/02/2006" then parse_slash true value
  else None.

Definition digit_char (d : Z) : ascii := ascii_of_nat (48 + Z.to_nat d).

Definition two_digits (n : Z) : string :=
  String (digit_char (n / 10 mod 10)) (String (digit_char (n mod 10)) EmptyString).

Definition four_digits (n : Z) : string :=
  (two_digits (n / 100) ++ two_digits n)%string.

Definition day_name (w : Z) : string :=
  nth (Z.to_nat w) ["Sun"; "Mon"; "Tue"; "Wed"; "Thu"; "Fri"; "Sat"] "".

Definition month_name (m : Z) : string :=
  nth (Z.to_nat (m - 1))
      ["Jan"; "Feb"; "Mar"; "Apr"; "May"; "Jun";
       "Jul"; "Aug"; "Sep"; "Oct"; "Nov"; "Dec"] "".

(** [t.Format(time.RFC1123Z)] of an instant in UTC. *)
Definition format_RFC1123Z (t : Z) : string :=
  let days := (t / 86400)%Z in
  let secs := (t mod 86400)%Z in
  let '(y, m, d) := civil_from_days days in
  (day_name ((days + 4) mod 7) ++ ", " ++ two_digits d ++ " "
   ++ month_name m ++ " " ++ four_digits y ++ " "
   ++ two_digits (secs / 3600) ++ ":" ++ two_digits (secs / 60 mod 60)
   ++ ":" ++ two_digits (secs mod 60) ++ " +0000")%string.

Definition Format (t : Z) (layout : string) : string :=
  if layout =? time.RFC1123Z then format_RFC1123Z t else layout.

(** The instance, over a clock given by its successive readings. *)
Definition pkg (clock : nat -> Z) : TimePkg :=
  {| Time := Z;
     time_Parse := Parse;
     Time_UTC := fun t => t;
     Time_Format := Format;
     time_Now := clock |}.

End UnixTime.


(* ================================================================== *)
(** ** encoding/xml: [xml.Marshal] of an [rss] value

    Character data and attribute values go through the escaping of
    [EscapeText], which walks the bytes one UTF-8 rune at a time. *)

Definition byte_val (c : ascii) : Z := Z.of_N (N_of_ascii c).

Definition byte_of (z : Z) : ascii := ascii_of_N (Z.to_N z).

(** [utf8.RuneError], U+FFFD. *)
Definition RuneError : Z := 65533.

(** The second byte a first byte accepts ([acceptRanges] of package
    utf8). *)
Definition utf8_accept (b0 : Z) : Z * Z :=
  (if b0 =? 224 then (160, 191)        (* 0xE0: 0xA0..0xBF *)
   else if b0 =? 237 then (128, 159)   (* 0xED: 0x80..0x9F *)
   else if b0 =? 240 then (144, 191)   (* 0xF0: 0x90..0xBF *)
   else if b0 =? 244 then (128, 143)   (* 0xF4: 0x80..0x8F *)
   else (128, 191))%Z.

Definition is_cont (b : Z) : bool := ((128 <=? b) && (b <=? 191))%Z.

(** [utf8.DecodeRune(p)]: the rune and its width in bytes;
    [(RuneError, 1)] for an invalid encoding. *)
Definition utf8_DecodeRune (p : string) : Z * nat :=
  match p with
  | EmptyString => (RuneError, 0%nat)
  | String p0 t =>
      let b0 := byte_val p0 in
      if (b0 <? 128)%Z then (b0, 1%nat)
      else if ((b0 <? 194) || (244 <? b0))%Z then (RuneError, 1%nat)
      else
        let sz := if (b0 <? 224)%Z then 2%nat
                  else if (b0 <? 240)%Z then 3%nat else 4%nat in
        let '(lo, hi) := utf8_accept b0 in
        if (String.length p <? sz)%nat then (RuneError, 1%nat) else
        match t with
        | EmptyString => (RuneError, 1%nat)
        | String p1 t1 =>
            let b1 := byte_val p1 in
            if ((b1 <? lo) || (hi <? b1))%Z then (RuneError, 1%nat)
            else if (sz <=? 2)%nat then
              (Z.lor (Z.shiftl (Z.land b0 31) 6) (Z.land b1 63), 2%nat)
            else
              match t1 with
              | EmptyString => (RuneError, 1%nat)
              | String p2 t2 =>
                  let b2 := byte_val p2 in
                  if negb (is_cont b2) then (RuneError, 1%nat)
                  else if (sz <=? 3)%nat then
                    (Z.lor (Z.lor (Z.shiftl (Z.land b0 15) 12)
                                  (Z.shiftl (Z.land b1 63) 6))
                           (Z.land b2 63), 3%nat)
                  else
                    match t2 with
                    | EmptyString => (RuneError, 1%nat)
                    | String p3 _ =>
                        let b3 := byte_val p3 in
                        if negb (is_cont b3) then (RuneError, 1%nat)
                        else
                          (Z.lor (Z.lor (Z.lor (Z.shiftl (Z.land b0 7) 18)
                                               (Z.shiftl (Z.land b1 63) 12))
                                        (Z.shiftl (Z.land b2 63) 6))
                                 (Z.land b3 63), 4%nat)
                    end
              end
        end
  end.

(** [isInCharacterRange(r)]: the Char production of XML 1.0. *)
Definition isInCharacterRange (r : Z) : bool :=
  ((r =? 9) || (r =? 10) || (r =? 13)
   || ((32 <=? r) && (r <=? 55295))
   || ((57344 <=? r) && (r <=? 65533))
   || ((65536 <=? r) && (r <=? 1114111)))%Z.

(** The double quote as a string. *)
Definition dquote : string := String ch_quote EmptyString.

(** The UTF-8 encoding of U+FFFD, [escFFFD]. *)
Definition escFFFD : string :=
  String (byte_of 239) (String (byte_of 191) (String (byte_of 189) EmptyString)).

(** Whether the rune just decoded is written as U+FFFD. *)
Definition xml_replaced (r : Z) (width : nat) : bool :=
  negb (isInCharacterRange r) || ((r =? RuneError)%Z && (width =? 1)%nat).

(** The [switch r] of [escapeText]: what is written for the rune [r]
    whose encoding is [bytes]. *)
Definition xml_escape_rune (r : Z) (width : nat) (bytes : string) : string :=
  (if r =? 34 then "&#34;"
   else if r =? 39 then "&#39;"
   else if r =? 38 then "&amp;"
   else if r =? 60 then "&lt;"
   else if r =? 62 then "&gt;"
   else if r =? 9 then "&#x9;"
   else if r =? 10 then "&#xA;"
   else if r =? 13 then "&#xD;"
   else if xml_replaced r width then escFFFD
   else bytes)%Z.

(** [s[:n]] and [s[n:]], cut short at the end of [s]. *)
Fixpoint string_take (n : nat) (s : string) : string :=
  match n, s with
  | S k, String c t => String c (string_take k t)
  | _, _ => EmptyString
  end.

Fixpoint string_drop (n : nat) (s : string) : string :=
  match n, s with
  | S k, String _ t => string_drop k t
  | _, _ => s
  end.

(** [escapeText(w, s, true)]: the loop [for i := 0; i < len(s); ]
    with [i += width]; [skip] counts the bytes left of the rune decoded
    last. *)
Fixpoint xml_escapeText (skip : nat) (s : string) : string :=
  match s with
  | EmptyString => EmptyString
  | String _ t =>
      match skip with
      | S k => xml_escapeText k t
      | O =>
          let '(r, width) := utf8_DecodeRune s in
          (xml_escape_rune r width (string_take width s)
           ++ xml_escapeText (width - 1) t)%string
      end
  end.

(** The strings [escapeText] writes without putting U+FFFD for any
    rune: valid UTF-8 whose runes are characters of XML 1.0. *)
Fixpoint xml_valid (skip : nat) (s : string) : bool :=
  match s with
  | EmptyString => true
  | String _ t =>
      match skip with
      | S k => xml_valid k t
      | O =>
          let '(r, width) := utf8_DecodeRune s in
          negb (xml_replaced r width) && xml_valid (width - 1) t
      end
  end.

(** [EscapeString(s)]. *)
Definition xml_EscapeString (s : string) : string := xml_escapeText 0 s.

Definition xml_start (name : string) : string := ("<" ++ name ++ ">")%string.
Definition xml_end (name : string) : string := ("</" ++ name ++ ">")%string.

(** A field marshalled as an element with character data. *)
Definition xml_element (name text : string) : string :=
  (xml_start name ++ xml_EscapeString text ++ xml_end name)%string.

(** A field tagged [omitempty]. *)
Definition xml_omitempty (name text : string) : string :=
  if text =? "" then "" else xml_element name text.

Definition marshal_item (e : item) : string :=
  (xml_start "item"
   ++ xml_element "title" (item_Title e)
   ++ xml_element "link" (item_Link e)
   ++ xml_element "description" (item_Description e)
   ++ xml_omitempty "pubDate" (item_PubDate e)
   ++ xml_omitempty "category" (item_Category e)
   ++ xml_end "item")%string.

(** The elements of the slice [Items], one after the other. *)
Fixpoint marshal_items (items : list item) : string :=
  match items with
  | [] => EmptyString
  | e :: rest => (marshal_item e ++ marshal_items rest)%string
  end.

Definition marshal_channel (c : channel) : string :=
  (xml_start "channel"
   ++ xml_element "title" (channel_Title c)
   ++ xml_element "link" (channel_Link c)
   ++ xml_element "description" (channel_Description c)
   ++ marshal_items (channel_Items c)
   ++ xml_end "channel")%string.

(** Modelled from the spec: the serializer of the feed document, which
    is [xml.Marshal] of Go's encoding/xml and not part of the sources.
    The model follows that package for a value of type [rss]: the
    element names of the struct tags, [omitempty], and the escaping of
    [EscapeText].  For this type [xml.Marshal] returns no error. *)
Definition xml_Marshal (v : rss) : string :=
  ("<rss version=" ++ dquote ++ xml_EscapeString (rss_Version v) ++ dquote ++ ">"
   ++ match rss_Channel v with
      | Some c => marshal_channel c
      | None => ""
      end
   ++ xml_end "rss")%string.

(** The feed documents all of whose strings are written unchanged. *)
Definition item_valid (e : item) : bool :=
  xml_valid 0 (item_Title e) && xml_valid 0 (item_Link e)
  && xml_valid 0 (item_Description e) && xml_valid 0 (item_PubDate e)
  && xml_valid 0 (item_Category e).

Definition channel_valid (c : channel) : bool :=
  xml_valid 0 (channel_Title c) && xml_valid 0 (channel_Link c)
  && xml_valid 0 (channel_Description c)
  && forallb item_valid (channel_Items c).

Definition rss_valid (v : rss) : bool :=
  xml_valid 0 (rss_Version v)
  && match rss_Channel v with
     | Some c => channel_valid c
     | None => true
     end.

(* ================================================================== *)
(** ** A reader of the feed format

    [main.go] only writes the feed.  The round trip is stated against
    this reader, which accepts the documents [xml_Marshal] writes:
    elements in the marshaller's order, character references and the
    predefined entities resolved, bytes otherwise taken as they are. *)

(** The character an entity or character reference stands for. *)
Definition xml_entity (name : string) : option ascii :=
  if name =? "#34" then Some ch_quote
  else if name =? "quot" then Some ch_quote
  else if name =? "#39" then Some "'"%char
  else if name =? "apos" then Some "'"%char
  else if name =? "amp" then Some "&"%char
  else if name =? "lt" then Some "<"%char
  else if name =? "gt" then Some ">"%char
  else if name =? "#x9" then Some "009"%char
  else if name =? "#xA" then Some ch_nl
  else if name =? "#xD" then Some ch_cr
  else None.

(** Character data with its references resolved; [ent] holds the name
    of the reference being read, if one is open. *)
Fixpoint xml_unescape (ent : option string) (s : string) : option string :=
  match s with
  | EmptyString =>
      match ent with
      | None => Some EmptyString
      | Some _ => None
      end
  | String c t =>
      match ent with
      | None =>
          if (c =? "&")%char then xml_unescape (Some EmptyString) t
          else option_map (String c) (xml_unescape None t)
      | Some name =>
          if (c =? ";")%char then
            match xml_entity name with
            | Some ch => option_map (String ch) (xml_unescape None t)
            | None => None
            end
          else xml_unescape (Some (snoc_char name c)) t
      end
  end.

(** [s] without its prefix [p], when it has it. *)
Fixpoint strip_prefix (p s : string) : option string :=
  match p with
  | EmptyString => Some s
  | String a p' =>
      match s with
      | EmptyString => None
      | String b s' => if (a =? b)%char then strip_prefix p' s' else None
      end
  end.

(** The bytes before the first [stop], and the rest from it on. *)
Fixpoint span_until (stop : ascii) (s : string) : string * string :=
  match s with
  | EmptyString => (EmptyString, EmptyString)
  | String c t =>
      if (c =? stop)%char then (EmptyString, s)
      else let '(a, b) := span_until stop t in (String c a, b)
  end.

(** Text up to [stop], resolved. *)
Definition read_text (stop : ascii) (s : string) : option (string * string) :=
  let '(raw, rest) := span_until stop s in
  match xml_unescape None raw with
  | Some text => Some (text, rest)
  | None => None
  end.

Definition read_element (name s : string) : option (string * string) :=
  match strip_prefix (xml_start name) s with
  | None => None
  | Some s1 =>
      match read_text "<"%char s1 with
      | None => None
      | Some (text, s2) =>
          match strip_prefix (xml_end name) s2 with
          | None => None
          | Some s3 => Some (text, s3)
          end
      end
  end.

(** An element that may be missing: the empty string then. *)
Definition read_optional (name s : string) : option (string * string) :=
  match strip_prefix (xml_start name) s with
  | None => Some (EmptyString, s)
  | Some _ => read_element name s
  end.

Definition read_item (s : string) : option (item * string) :=
  match strip_prefix (xml_start "item") s with
  | None => None
  | Some s0 =>
  match read_element "title" s0 with
  | None => None
  | Some (t, s1) =>
  match read_element "link" s1 with
  | None => None
  | Some (l, s2) =>
  match read_element "description" s2 with
  | None => None
  | Some (d, s3) =>
  match read_optional "pubDate" s3 with
  | None => None
  | Some (p, s4) =>
  match read_optional "category" s4 with
  | None => None
  | Some (c, s5) =>
  match strip_prefix (xml_end "item") s5 with
  | None => None
  | Some s6 => Some (mkItem t l d p c, s6)
  end end end end end end end.

(** The items of a channel, as long as an [<item>] follows; [fuel]
    bounds their number. *)
Fixpoint read_items (fuel : nat) (s : string) : option (list item * string) :=
  match strip_prefix (xml_start "item") s with
  | None => Some ([], s)
  | Some _ =>
      match fuel with
      | O => None
      | S fuel' =>
          match read_item s with
          | None => None
          | Some (e, s1) =>
              match read_items fuel' s1 with
              | None => None
              | Some (es, s2) => Some (e :: es, s2)
              end
          end
      end
  end.

Definition read_channel (s : string) : option (channel * string) :=
  match strip_prefix (xml_start "channel") s with
  | None => None
  | Some s0 =>
  match read_element "title" s0 with
  | None => None
  | Some (t, s1) =>
  match read_element "link" s1 with
  | None => None
  | Some (l, s2) =>
  match read_element "description" s2 with
  | None => None
  | Some (d, s3) =>
  match read_items (String.length s3) s3 with
  | None => None
  | Some (es, s4) =>
  match strip_prefix (xml_end "channel") s4 with
  | None => None
  | Some s5 => Some (mkChannel t l d es, s5)
  end end end end end end.

(** Modelled from the spec: the parser of the round-trip property
    ("parsing the resulting feed format"); the sources have none.  It
    reads a whole document in the marshaller's format. *)
Definition parse_feed (s : string) : option rss :=
  match strip_prefix ("<rss version=" ++ dquote)%string s with
  | None => None
  | Some s0 =>
  match read_text ch_quote s0 with
  | None => None
  | Some (v, s1) =>
  match strip_prefix (dquote ++ ">")%string s1 with
  | None => None
  | Some s2 =>
      match strip_prefix (xml_start "channel") s2 with
      | None =>
          match strip_prefix (xml_end "rss") s2 with
          | Some EmptyString => Some (mkRss v None)
          | _ => None
          end
      | Some _ =>
          match read_channel s2 with
          | None => None
          | Some (c, s3) =>
              match strip_prefix (xml_end "rss") s3 with
              | Some EmptyString => Some (mkRss v (Some c))
              | _ => None
              end
          end
      end
  end end end.


(* ================================================================== *)
(** ** The cache and its publisher *)

(** The lower-case hex digit of a value below 16. *)
Definition hex_digit (n : Z) : ascii :=
  if (n <? 10)%Z then byte_of (48 + n) else byte_of (87 + n).

Definition hex_byte (c : ascii) : string :=
  String (hex_digit (byte_val c / 16))
         (String (hex_digit (byte_val c mod 16)) EmptyString).

(** [fmt.Sprintf("% x", hash)] for a byte array: two lower-case hex
    digits per byte, the bytes separated by single spaces. *)
Fixpoint fmt_Sprintf_space_x (hash : string) : string :=
  match hash with
  | EmptyString => EmptyString
  | String c EmptyString => hex_byte c
  | String c rest => (hex_byte c ++ " " ++ fmt_Sprintf_space_x rest)%string
  end.

(** [hex.EncodeToString]: the plain hex encoding, for comparison. *)
Fixpoint hex_EncodeToString (src : string) : string :=
  match src with
  | EmptyString => EmptyString
  | String c rest => (hex_byte c ++ hex_EncodeToString rest)%string
  end.

(** The string without its spaces. *)
Fixpoint remove_spaces (s : string) : string :=
  match s with
  | EmptyString => EmptyString
  | String c t =>
      if (c =? " ")%char then remove_spaces t else String c (remove_spaces t)
  end.

(** crypto/sha1, as an interface: [sha1.Sum(data)], the 20 bytes. *)
Class HashPkg : Type := {
  sha1_Sum : string -> string
}.

(** [type sheet2rss struct].  The mutex [mu] is not a field of the
    model: the steps of the process below are finer than its critical
    sections, so what holds of every state holds of the states a
    request can see. *)
Record sheet2rss : Type := mkSheet {
  url : string;
  ready : bool;
  cached : string;
  digest : string
}.

(** The handler [main] builds: every field but [url] is zero. *)
Definition new_sheet2rss (u : string) : sheet2rss := mkSheet u false "" "".

(** What [s.get()] returned: an error, or the body that was read. *)
Inductive fetched : Type :=
| FetchError
| FetchBody (body : string).

(** The assignments of [refresh], in program order. *)
Inductive store : Type :=
| StoreDigest (d : string)     (* s.digest = ... *)
| StoreCached (c : string)     (* s.cached = content *)
| StoreReady.                  (* s.ready = true *)

Definition apply_store (s : sheet2rss) (w : store) : sheet2rss :=
  match w with
  | StoreDigest d => mkSheet (url s) (ready s) (cached s) d
  | StoreCached c => mkSheet (url s) (ready s) c (digest s)
  | StoreReady => mkSheet (url s) true (cached s) (digest s)
  end.

(** The HTTP methods, as far as the handler tells them apart. *)
Definition MethodGet : string := "GET".

Definition StatusOK : Z := 200.
Definition StatusNotFound : Z := 404.
Definition StatusMethodNotAllowed : Z := 405.

(** An [http.ResponseWriter]: the status once the header is written,
    and the body written so far. *)
Record ResponseWriter : Type := mkResponse {
  status : option Z;
  body : string
}.

Definition new_response : ResponseWriter := mkResponse None "".

(** [w.WriteHeader(code)]; a second call changes nothing. *)
Definition WriteHeader (w : ResponseWriter) (code : Z) : ResponseWriter :=
  match status w with
  | None => mkResponse (Some code) (body w)
  | Some _ => w
  end.

(** [w.Write(b)]: writes the header with 200 first if none was. *)
Definition Write (w : ResponseWriter) (b : string) : ResponseWriter :=
  let w := WriteHeader w StatusOK in
  mkResponse (status w) (body w ++ b)%string.

(** The status a client sees once the handler has returned. *)
Definition sent_status (w : ResponseWriter) : Z :=
  match status w with
  | Some code => code
  | None => StatusOK
  end.

(** The prefix [ServeHTTP] writes before the cached bytes. *)
Definition xml_declaration : string :=
  ("<?xml version=" ++ dquote ++ "1.0" ++ dquote ++ " encoding="
   ++ dquote ++ "UTF-8" ++ dquote ++ " ?>")%string.

(** [func (s *sheet2rss) ServeHTTP(w, r)], on the request's method. *)
Definition ServeHTTP (s : sheet2rss) (w : ResponseWriter) (method : string)
  : ResponseWriter :=
  if negb (method =? MethodGet) then WriteHeader w StatusMethodNotAllowed
  else
    let content := if ready s then cached s else "" in
    if (0 <? String.length content)%nat then
      Write (Write w xml_declaration) content
    else WriteHeader w StatusNotFound.

Section Publisher.
Context {TP : TimePkg} {HP : HashPkg}.

(** [refresh] up to [xml.Marshal]: the content to publish, or [None]
    when [log.Fatal] (or a panic) ends the process. *)
Definition refresh_content (got : fetched) (tick : nat) : option (string * nat) :=
  match got with
  | FetchError => None
  | FetchBody r =>
      match fromCSV new_rss r NumEntries tick with
      | Returned None feed tick' => Some (xml_Marshal feed, tick')
      | Returned (Some _) _ _ => None
      | Panicked _ => None
      end
  end.

(** What [refresh] then stores, in program order. *)
Definition refresh_stores (content : string) : list store :=
  [ StoreDigest (fmt_Sprintf_space_x (sha1_Sum content));
    StoreCached content;
    StoreReady ].

(** [func (s *sheet2rss) refresh()], run to its end. *)
Definition refresh (s : sheet2rss) (got : fetched) (tick : nat)
  : option (sheet2rss * nat) :=
  match refresh_content got tick with
  | None => None
  | Some (content, tick') =>
      Some (fold_left apply_store (refresh_stores content) s, tick')
  end.

(** Where the goroutine [go handler.refresh()] of [main] stands. *)
Inductive goroutine : Type :=
| Spawned                       (* not yet past xml.Marshal *)
| Storing (todo : list store)   (* the assignments still to do *)
| Finished
| Exited.                       (* log.Fatal: the process is gone *)

(** The process: the handler, the refresh goroutine, the clock. *)
Record process : Type := mkProcess {
  handler : sheet2rss;
  refresher : goroutine;
  ticks : nat
}.

(** [main]: the handler is built and the goroutine started. *)
Definition main (key : string) : process :=
  mkProcess
    (new_sheet2rss ("https://docs.google.com/spreadsheets/d/" ++ key
                    ++ "/export?format=csv")%string)
    Spawned 0.

(** The steps of the process.  Requests do not appear: [ServeHTTP]
    assigns to nothing, so serving one is no change of state.  Once
    [Exited], the state changes no more and no request is served. *)
Inductive step : process -> process -> Prop :=
| step_content : forall s tick got content tick',
    refresh_content got tick = Some (content, tick') ->
    step (mkProcess s Spawned tick)
         (mkProcess s (Storing (refresh_stores content)) tick')
| step_fatal : forall s tick got,
    refresh_content got tick = None ->
    step (mkProcess s Spawned tick) (mkProcess s Exited tick)
| step_store : forall s tick w todo,
    step (mkProcess s (Storing (w :: todo)) tick)
         (mkProcess (apply_store s w) (Storing todo) tick)
| step_return : forall s tick,
    step (mkProcess s (Storing []) tick) (mkProcess s Finished tick)
| step_exit : forall s g tick,
    (* log.Fatal(http.ListenAndServe(...)): the server gave up *)
    step (mkProcess s g tick) (mkProcess s Exited tick).

(** The states the process started by [main] can be in. *)
Inductive reachable (key : string) : process -> Prop :=
| reach_main : reachable key (main key)
| reach_step : forall p p',
    reachable key p -> step p p' -> reachable key p'.

(** The digest [refresh] stores for [content]. *)
Definition digest_of (content : string) : string :=
  fmt_Sprintf_space_x (sha1_Sum content).

(** [content] is what some run of [refresh] marshalled. *)
Definition marshalled (content : string) : Prop :=
  exists got tick tick', refresh_content got tick = Some (content, tick').

(** The cache holds what some run of [refresh] marshalled, and the
    digest is the digest of that. *)
Definition published (s : sheet2rss) : Prop :=
  marshalled (cached s) /\ digest s = digest_of (cached s).

(** What holds of the process between the steps of [refresh]. *)
Definition process_inv (p : process) : Prop :=
  let s := handler p in
  match refresher p with
  | Spawned => ready s = false
  | Exited => ready s = true -> published s
  | Storing todo =>
      exists content, marshalled content
        /\ ((todo = refresh_stores content /\ ready s = false)
            \/ (todo = [StoreCached content; StoreReady]
                /\ ready s = false /\ digest s = digest_of content)
            \/ (todo = [StoreReady] /\ ready s = false
                /\ digest s = digest_of content /\ cached s = content)
            \/ (todo = [] /\ ready s = true
                /\ digest s = digest_of content /\ cached s = content))
  | Finished =>
      exists content, marshalled content
        /\ ready s = true /\ digest s = digest_of content /\ cached s = content
  end.

End Publisher.


(* ================================================================== *)
(** ** Sample inputs *)

Definition newline : string := String ch_nl EmptyString.

(** The spreadsheet of the end-to-end scenario: a header and two
    data rows. *)
Definition scenario_csv : string :=
  ("date,description,article,activity,branch,detail" ++ newline
   ++ "1/2/2017,Bill signed,http://x/1,signing,executive,Some detail" ++ newline
   ++ "1/5/2017,Vote held,http://x/2,vote,legislative,Another detail" ++ newline)%string.

(** The title, link and category of each item of a feed, in order. *)
Definition feed_entries (rs : rss) : list (string * string * string) :=
  match rss_Channel rs with
  | Some c => map (fun e => (item_Title e, item_Link e, item_Category e))
                  (channel_Items c)
  | None => []
  end.

(** The number of items of a feed. *)
Definition feed_count (rs : rss) : nat :=
  match rss_Channel rs with
  | Some c => List.length (channel_Items c)
  | None => 0
  end.

(** The columns [fromRecord] knows. *)
Definition known_column (h : string) : bool :=
  (h =? "date") || (h =? "description") || (h =? "article")
  || (h =? "activity") || (h =? "branch") || (h =? "detail").

(** The category as the specification words it: the values of the
    activity and branch columns, in the order the header has them,
    from column [i] on. *)
Fixpoint category_values (i : nat) (headers fields : list string) : list string :=
  match headers with
  | [] => []
  | h :: hs =>
      if (h =? "activity") || (h =? "branch")
      then get fields i :: category_values (S i) hs fields
      else category_values (S i) hs fields
  end.


(* ================================================================== *)
(** ** A reference instance of the hash interface: SHA-1 (FIPS 180-4) *)

Module SHA1.

Definition mask32 (x : Z) : Z := (x mod 2 ^ 32)%Z.

Definition rotl (n x : Z) : Z :=
  mask32 (Z.lor (Z.shiftl x n) (Z.shiftr x (32 - n))).

Fixpoint bytes_of (s : string) : list Z :=
  match s with
  | EmptyString => []
  | String c t => byte_val c :: bytes_of t
  end.

Fixpoint string_of (l : list Z) : string :=
  match l with
  | [] => EmptyString
  | b :: t => String (byte_of b) (string_of t)
  end.

(** The [n] low bytes of [x], most significant first. *)
Fixpoint big_endian (n : nat) (x : Z) : list Z :=
  match n with
  | O => []
  | S k => ((x / 256 ^ Z.of_nat k) mod 256)%Z :: big_endian k x
  end.

(** The message with its padding: a one bit, zeros, and the length in
    bits on eight bytes. *)
Definition pad (msg : list Z) : list Z :=
  let l := Z.of_nat (List.length msg) in
  msg ++ [128%Z] ++ repeat 0%Z (Z.to_nat ((55 - l) mod 64)) ++ big_endian 8 (8 * l).

(** Big-endian 32-bit words of a byte sequence. *)
Fixpoint words (fuel : nat) (bytes : list Z) : list Z :=
  match fuel, bytes with
  | S k, a :: b :: c :: d :: rest =>
      (((a * 256 + b) * 256 + c) * 256 + d)%Z :: words k rest
  | _, _ => []
  end.

(** The message schedule, latest word first: [n] more words. *)
Fixpoint schedule (n : nat) (w : list Z) : list Z :=
  match n with
  | O => w
  | S k =>
      schedule k
        (rotl 1 (Z.lxor (Z.lxor (nth 2 w 0%Z) (nth 7 w 0%Z))
                        (Z.lxor (nth 13 w 0%Z) (nth 15 w 0%Z))) :: w)
  end.

Definition round_f (t : nat) (b c d : Z) : Z :=
  if (t <? 20)%nat then Z.lor (Z.land b c) (Z.land (mask32 (Z.lnot b)) d)
  else if (t <? 40)%nat then Z.lxor (Z.lxor b c) d
  else if (t <? 60)%nat then Z.lor (Z.lor (Z.land b c) (Z.land b d)) (Z.land c d)
  else Z.lxor (Z.lxor b c) d.

Definition round_k (t : nat) : Z :=
  if (t <? 20)%nat then 1518500249%Z        (* 0x5A827999 *)
  else if (t <? 40)%nat then 1859775393%Z   (* 0x6ED9EBA1 *)
  else if (t <? 60)%nat then 2400959708%Z   (* 0x8F1BBCDC *)
  else 3395469782%Z.                        (* 0xCA62C1D6 *)

Definition state : Type := (Z * Z * Z * Z * Z)%type.

Fixpoint rounds (t : nat) (w : list Z) (st : state) : state :=
  match w with
  | [] => st
  | wt :: w' =>
      let '(a, b, c, d, e) := st in
      let temp := mask32 (rotl 5 a + round_f t b c d + e + round_k t + wt) in
      rounds (S t) w' (temp, a, rotl 30 b, c, d)
  end.

Definition block (h : state) (w16 : list Z) : state :=
  let '(h0, h1, h2, h3, h4) := h in
  let '(a, b, c, d, e) := rounds 0 (rev (schedule 64 (rev w16))) h in
  (mask32 (h0 + a), mask32 (h1 + b), mask32 (h2 + c), mask32 (h3 + d),
   mask32 (h4 + e)).

Fixpoint blocks (fuel : nat) (h : state) (w : list Z) : state :=
  match fuel, w with
  | S k, _ :: _ => blocks k (block h (firstn 16 w)) (skipn 16 w)
  | _, _ => h
  end.

Definition init : state :=
  (1732584193, 4023233417, 2562383102, 271733878, 3285377520)%Z.

(** [sha1.Sum(data)]: the 20 bytes of the digest. *)
Definition Sum (data : string) : string :=
  let bytes := pad (bytes_of data) in
  let w := words (List.length bytes) bytes in
  let '(h0, h1, h2, h3, h4) := blocks (List.length w) init w in
  string_of (big_endian 4 h0 ++ big_endian 4 h1 ++ big_endian 4 h2
             ++ big_endian 4 h3 ++ big_endian 4 h4).

Definition pkg : HashPkg := {| sha1_Sum := Sum |}.

End SHA1.

(** Every byte is 128 or more: the bytes of a multi-byte rune. *)
Fixpoint all_high (s : string) : bool :=
  match s with
  | EmptyString => true
  | String c t => (128 <=? byte_val c)%Z && all_high t
  end.

(** Whether the byte [x] occurs in [s]. *)
Fixpoint has_char (x : ascii) (s : string) : bool :=
  match s with
  | EmptyString => false
  | String c t => (c =? x)%char || has_char x t
  end.

(** Two feeds of one item each: the title of the first is the control
    character U+0001, the title of the second is U+FFFD. *)
Definition feed_of_title (title : string) : rss :=
  mkRss "2.0" (Some (mkChannel Title URL Desc [mkItem title "l" "d" "p" "c"])).

Definition feed_control : rss := feed_of_title (String (byte_of 1) EmptyString).
Definition feed_replacement : rss := feed_of_title escFFFD.

(** Two header names that are the same, or both unknown to
    [fromRecord]. *)
Definition same_known (h h' : string) : Prop :=
  h = h' \/ (known_column h = false /\ known_column h' = false).

(** The reference instances, with a clock stopped at the epoch. *)
Definition epoch_time : TimePkg := UnixTime.pkg (fun _ => 0%Z).

(** The feed built from the scenario's spreadsheet, with the
    reference instances. *)
Definition scenario_feed : rss :=
  match @fromCSV epoch_time new_rss scenario_csv NumEntries 0 with
  | Returned _ feed _ => feed
  | Panicked _ => new_rss
  end.

(** The process of [main] once [refresh] has run to its end on the
    scenario's spreadsheet. *)
Definition scenario_process : process :=
  mkProcess
    (fold_left apply_store
               (@refresh_stores SHA1.pkg (xml_Marshal scenario_feed))
               (handler (main "KEY")))
    Finished 0.


(* ================================================================== *)
(** * Properties *)

(* ================================================================== *)
(** ** The models of the libraries, on known values *)

(** The test vectors of FIPS 180 for SHA-1. *)
Example SHA1_abc :
  hex_EncodeToString (SHA1.Sum "abc")
  = "a9993e364706816aba3e25717850c26c9cd0d89d".
Proof. vm_compute. reflexivity. Qed.

Example SHA1_empty :
  hex_EncodeToString (SHA1.Sum "")
  = "da39a3ee5e6b4b0d3255bfef95601890afd80709".
Proof. vm_compute. reflexivity. Qed.

Example SHA1_two_blocks :
  hex_EncodeToString
    (SHA1.Sum "abcdbcdecdefdefgefghfghighijhijkijkljklmklmnlmnomnopnopq")
  = "84983e441c3bd26ebaae4aa1f95129e5e54670f1".
Proof. vm_compute. reflexivity. Qed.

(** The second of January 2017 was a Monday. *)
Example Format_2017_01_02 :
  UnixTime.Format 1483315200 time.RFC1123Z = "Mon, 02 Jan 2017 00:00:00 +0000".
Proof. vm_compute. reflexivity. Qed.

Example Parse_slash_date :
  UnixTime.Parse "1/2/2006" "1/2/2017" = Some 1483315200%Z
  /\ UnixTime.Parse "01/02/2006" "1/2/2017" = None
  /\ UnixTime.Parse "1/2/2006" "2/30/2017" = None.
Proof. vm_compute. repeat split. Qed.

(** A quoted field keeps its comma and its line break, a doubled quote
    stands for one, and an empty line is skipped. *)
Example csv_quoted_fields :
  csv_ReadAll ("a," ++ dquote ++ "b,c" ++ newline ++ "d" ++ dquote ++ dquote
               ++ "e" ++ dquote ++ newline ++ newline ++ "f,g" ++ newline)
  = ([["a"; ("b,c" ++ newline ++ "d" ++ dquote ++ "e")%string]; ["f"; "g"]],
     None).
Proof. vm_compute. reflexivity. Qed.

(** A line may end in CR LF, and the last line need not end at all. *)
Example csv_line_ends :
  csv_ReadAll ("a,b" ++ String ch_cr newline ++ "c,")
  = ([["a"; "b"]; ["c"; ""]], None).
Proof. vm_compute. reflexivity. Qed.

Example csv_bare_quote :
  csv_ReadAll ("a" ++ dquote ++ "b" ++ newline) = ([], Some ErrBareQuote).
Proof. vm_compute. reflexivity. Qed.

Example csv_open_quote :
  csv_ReadAll (dquote ++ "a,b" ++ newline) = ([], Some ErrQuote).
Proof. vm_compute. reflexivity. Qed.

(** The characters the marshaller escapes, and one it replaces. *)
Example EscapeString_specials :
  xml_EscapeString ("a<b>&" ++ dquote ++ "'" ++ newline ++ String (byte_of 7) "")
  = ("a&lt;b&gt;&amp;&#34;&#39;&#xA;" ++ escFFFD)%string.
Proof. vm_compute. reflexivity. Qed.

(* ================================================================== *)
(** ** The date parser *)

Section DateFacts.
Context {TP : TimePkg}.

Lemma parseDate_range_first (layouts : list string) (s : string) :
  forall (i : nat) (x : string) (p : Time),
    nth_error layouts i = Some x ->
    time_Parse x s = Some p ->
    (forall j y, (j < i)%nat -> nth_error layouts j = Some y ->
                 time_Parse y s = None) ->
    parseDate_range layouts s = Some (Time_UTC p).
Proof.
  induction layouts as [|l ls IH]; intros i x p Hi Hp Hbefore.
  - destruct i; discriminate.
  - destruct i as [|i]; simpl in Hi.
    + injection Hi as ->. simpl. now rewrite Hp.
    + simpl. rewrite (Hbefore 0%nat l) by (simpl; auto with arith).
      apply (IH i x p Hi Hp).
      intros j y Hj Hy. apply (Hbefore (S j) y); [lia | exact Hy].
Qed.

Lemma parseDate_range_none (layouts : list string) (s : string) :
  (forall x, In x layouts -> time_Parse x s = None) ->
  parseDate_range layouts s = None.
Proof.
  induction layouts as [|l ls IH]; intros Hall; simpl.
  - reflexivity.
  - rewrite (Hall l) by (left; reflexivity).
    apply IH. intros x Hx. apply Hall. now right.
Qed.

(** C5.  When the string parses under one of the layouts, [parseDate]
    returns the parse under the first such layout, in the order of the
    list, normalized to UTC, and does not read the clock.  When it
    parses under none, [parseDate] returns the current reading of the
    wall clock in UTC, and no error. *)
Theorem parseDate_first_match_or_now (s : string) (tick : nat) :
  (forall (i : nat) (x : string) (p : Time),
      nth_error parseDate_layouts i = Some x ->
      time_Parse x s = Some p ->
      (forall j y, (j < i)%nat -> nth_error parseDate_layouts j = Some y ->
                   time_Parse y s = None) ->
      parseDate s tick = (Time_UTC p, tick))
  /\ ((forall x, In x parseDate_layouts -> time_Parse x s = None) ->
      parseDate s tick = (Time_UTC (time_Now tick), S tick)).
Proof.
  split.
  - intros i x p Hi Hp Hbefore. unfold parseDate.
    now rewrite (parseDate_range_first _ s i x p Hi Hp Hbefore).
  - intros Hnone. unfold parseDate.
    now rewrite (parseDate_range_none _ s Hnone).
Qed.

End DateFacts.

(** The date of the scenario's second row parses under the sixth
    layout only; a string that is no date falls back to the clock,
    here at its eighth reading. *)
Lemma parseDate_first_match_or_now_witness :
  @parseDate (UnixTime.pkg (fun _ => 1000%Z)) "1/5/2017" 7
  = (1483574400%Z, 7%nat)
  /\ @parseDate (UnixTime.pkg (fun _ => 1000%Z)) "not a date" 7
     = (1000%Z, 8%nat).
Proof.
  split.
  - apply (proj1 (@parseDate_first_match_or_now (UnixTime.pkg (fun _ => 1000%Z))
                    "1/5/2017" 7) 5%nat "1/2/2006" 1483574400%Z).
    + reflexivity.
    + vm_compute. reflexivity.
    + intros j y Hj Hy.
      do 5 (destruct j as [|j]; [injection Hy as <-; vm_compute; reflexivity|]).
      lia.
  - apply (proj2 (@parseDate_first_match_or_now (UnixTime.pkg (fun _ => 1000%Z))
                    "not a date" 7)).
    intros x Hx. simpl in Hx.
    repeat (destruct Hx as [<-|Hx]; [vm_compute; reflexivity|]).
    contradiction.
Defined.

(* ================================================================== *)
(** ** The record mapper *)

Lemma get_past_end (fields : list string) (i : nat) :
  (List.length fields <= i)%nat -> get fields i = "".
Proof.
  intros H. unfold get, len.
  destruct (Z.ltb_spec (Z.of_nat i) (Z.of_nat (List.length fields)));
    [lia | reflexivity].
Qed.

(** The index expression [fields[i]] is evaluated in range only. *)
Lemma get_in_range (fields : list string) (i : nat) :
  (i < List.length fields)%nat -> nth_error fields i = Some (get fields i).
Proof.
  intros H. unfold get, len.
  destruct (Z.ltb_spec (Z.of_nat i) (Z.of_nat (List.length fields))); [| lia].
  now apply nth_error_nth'.
Qed.

(** Splits the goal along the cases of [switch h]. *)
Ltac switch_header h :=
  unfold fromRecord_body;
  destruct (String.eqb_spec h "date");
    [subst h; cbn |
  destruct (String.eqb_spec h "description");
    [subst h; cbn |
  destruct (String.eqb_spec h "article");
    [subst h; cbn |
  destruct (String.eqb_spec h "activity");
    [subst h; cbn |
  destruct (String.eqb_spec h "branch");
    [subst h; cbn |
  destruct (String.eqb_spec h "detail");
    [subst h; cbn | cbn ]]]]]].

Section MapperFacts.
Context {TP : TimePkg}.

Lemma body_Title fields st i h :
  item_Title (ms_item (fromRecord_body fields st i h))
  = if h =? "description" then get fields i else item_Title (ms_item st).
Proof. switch_header h; reflexivity. Qed.

Lemma body_Link fields st i h :
  item_Link (ms_item (fromRecord_body fields st i h))
  = if h =? "article" then get fields i else item_Link (ms_item st).
Proof. switch_header h; reflexivity. Qed.

Lemma body_Description fields st i h :
  item_Description (ms_item (fromRecord_body fields st i h))
  = if h =? "detail" then get fields i else item_Description (ms_item st).
Proof. switch_header h; reflexivity. Qed.

Lemma body_PubDate fields st i h :
  item_PubDate (ms_item (fromRecord_body fields st i h))
  = if h =? "date"
    then Time_Format (fst (parseDate (get fields i) (ms_tick st))) time.RFC1123Z
    else item_PubDate (ms_item st).
Proof. switch_header h; reflexivity. Qed.

Lemma body_cats fields st i h :
  ms_cats (fromRecord_body fields st i h)
  = if (h =? "activity") || (h =? "branch")
    then ms_cats st ++ [get fields i] else ms_cats st.
Proof. switch_header h; reflexivity. Qed.

Lemma body_unknown fields st i h :
  known_column h = false -> fromRecord_body fields st i h = st.
Proof.
  unfold known_column. intros H.
  switch_header h; try discriminate H. reflexivity.
Qed.

Lemma range_cats headers : forall i fields st,
  ms_cats (fromRecord_range i headers fields st)
  = ms_cats st ++ category_values i headers fields.
Proof.
  induction headers as [|h hs IH]; intros i fields st; simpl.
  - now rewrite app_nil_r.
  - rewrite IH, body_cats.
    destruct ((h =? "activity") || (h =? "branch")).
    + now rewrite <- app_assoc.
    + reflexivity.
Qed.

(** A field keeps the empty string when every column that would set
    it lies past the end of the row. *)
Lemma range_empty (column : string) (field : item -> string) headers :
  (forall fields st i h,
      field (ms_item (fromRecord_body fields st i h))
      = if h =? column then get fields i else field (ms_item st)) ->
  forall i fields st,
    field (ms_item st) = "" ->
    (forall k, nth_error headers k = Some column ->
               (List.length fields <= i + k)%nat) ->
    field (ms_item (fromRecord_range i headers fields st)) = "".
Proof.
  intros Hbody.
  induction headers as [|h hs IH]; intros i fields st Hst Hpast; simpl.
  - exact Hst.
  - apply IH.
    + rewrite Hbody. destruct (String.eqb_spec h column) as [->|_].
      * apply get_past_end. specialize (Hpast 0%nat eq_refl). lia.
      * exact Hst.
    + intros k Hk. specialize (Hpast (S k) Hk). lia.
Qed.

Lemma range_PubDate_absent headers : forall i fields st,
  ~ In "date" headers ->
  item_PubDate (ms_item (fromRecord_range i headers fields st))
  = item_PubDate (ms_item st).
Proof.
  induction headers as [|h hs IH]; intros i fields st Hno; simpl.
  - reflexivity.
  - rewrite IH by (intros Hin; apply Hno; now right).
    rewrite body_PubDate.
    destruct (String.eqb_spec h "date") as [->|_]; [|reflexivity].
    exfalso. apply Hno. now left.
Qed.

(** With a date column, and all of them past the end of the row, the
    date is what the date parser makes of the empty string. *)
Lemma range_PubDate_past_end headers : forall i fields st,
  (forall k, nth_error headers k = Some "date" ->
             (List.length fields <= i + k)%nat) ->
  (In "date" headers
   \/ exists t, item_PubDate (ms_item st)
                = Time_Format (fst (parseDate "" t)) time.RFC1123Z) ->
  exists t, item_PubDate (ms_item (fromRecord_range i headers fields st))
            = Time_Format (fst (parseDate "" t)) time.RFC1123Z.
Proof.
  induction headers as [|h hs IH]; intros i fields st Hpast Hsrc; simpl.
  - destruct Hsrc as [[]|Hst]. exact Hst.
  - apply IH.
    + intros k Hk. specialize (Hpast (S k) Hk). lia.
    + rewrite body_PubDate.
      destruct (String.eqb_spec h "date") as [->|Hne].
      * right. exists (ms_tick st).
        rewrite get_past_end; [reflexivity|].
        specialize (Hpast 0%nat eq_refl). lia.
      * destruct Hsrc as [[Heq|Hin]|Hst].
        -- congruence.
        -- now left.
        -- now right.
Qed.

Lemma range_unknown headers headers' :
  Forall2 same_known headers headers' ->
  forall i fields st,
    fromRecord_range i headers fields st = fromRecord_range i headers' fields st.
Proof.
  induction 1 as [|h h' hs hs' Hh _ IH]; intros i fields st; simpl.
  - reflexivity.
  - destruct Hh as [->|[Hu Hu']].
    + apply IH.
    + rewrite !body_unknown by assumption. apply IH.
Qed.

(** C4, amended.  [fromRecord] returns an entry for every header row
    and data row, shorter rows included.  On a fresh entry: title,
    link and description are the empty string when each of their
    columns is absent or lies past the end of the row; the date is the
    empty string when there is no date column, and when the date
    columns lie past the end of the row it is the formatted result of
    the date parser on the empty string; the category is the values of
    the activity and branch columns in header order, a value past the
    end of the row counting as empty, joined by commas; and the names
    of unknown columns do not matter. *)
Theorem fromRecord_total (headers fields : list string) (tick : nat) :
  exists (e : item) (tick' : nat),
    fromRecord new_item headers fields tick = (e, tick')
    /\ ((forall k, nth_error headers k = Some "description" ->
                   (List.length fields <= k)%nat) -> item_Title e = "")
    /\ ((forall k, nth_error headers k = Some "article" ->
                   (List.length fields <= k)%nat) -> item_Link e = "")
    /\ ((forall k, nth_error headers k = Some "detail" ->
                   (List.length fields <= k)%nat) -> item_Description e = "")
    /\ (~ In "date" headers -> item_PubDate e = "")
    /\ (In "date" headers ->
        (forall k, nth_error headers k = Some "date" ->
                   (List.length fields <= k)%nat) ->
        exists t, item_PubDate e
                  = Time_Format (fst (parseDate "" t)) time.RFC1123Z)
    /\ item_Category e = strings_Join (category_values 0 headers fields) ","
    /\ (forall headers', Forall2 same_known headers headers' ->
                         fromRecord new_item headers' fields tick = (e, tick')).
Proof.
  eexists. eexists. split; [reflexivity|].
  cbn [item_Title item_Link item_Description item_PubDate item_Category].
  repeat split.
  - intros H. now apply (range_empty "description" item_Title headers body_Title).
  - intros H. now apply (range_empty "article" item_Link headers body_Link).
  - intros H.
    now apply (range_empty "detail" item_Description headers body_Description).
  - intros H. now rewrite range_PubDate_absent.
  - intros Hin H. apply range_PubDate_past_end; [exact H | now left].
  - now rewrite range_cats.
  - intros headers' H. unfold fromRecord. now rewrite (range_unknown _ _ H).
Qed.

End MapperFacts.

(** A header of known and unknown columns over an empty row: the
    title is empty, and so is the date, for want of a date column. *)
Lemma fromRecord_total_witness :
  exists (e : item) (tick' : nat),
    @fromRecord epoch_time new_item ["description"; "colour"; "branch"] [] 0
    = (e, tick')
    /\ item_Title e = "" /\ item_PubDate e = "" /\ item_Category e = "".
Proof.
  destruct (@fromRecord_total epoch_time ["description"; "colour"; "branch"] [] 0)
    as (e & tick' & Heq & Htitle & _ & _ & Hdate & _ & Hcat & _).
  exists e, tick'. repeat split.
  - exact Heq.
  - apply Htitle. intros k _. apply Nat.le_0_l.
  - apply Hdate. simpl. intros [H|[H|[H|[]]]]; discriminate H.
  - exact Hcat.
Defined.

(** C4, as stated, fails.  The header has a date column and the row is
    empty, so the value of the date lies past the end of the row; the
    date parser falls back to the clock, and the date of the entry is
    the formatted clock reading, not the empty string. *)
Lemma fromRecord_short_row_date :
  item_PubDate (fst (@fromRecord epoch_time new_item ["date"] [] 0))
  = "Thu, 01 Jan 1970 00:00:00 +0000"
  /\ item_PubDate (fst (@fromRecord epoch_time new_item ["date"] [] 0)) <> "".
Proof.
  split; [vm_compute; reflexivity | vm_compute; discriminate].
Qed.

(* ================================================================== *)
(** ** The CSV reader *)

(** Every record the field parser delivers has at least one field. *)
Lemma csv_scan_nonempty (s : string) :
  forall m fields buf parsed final,
    csv_scan m fields buf s = (parsed, final) ->
    Forall (fun record => record <> []) parsed.
Proof.
  induction s as [|c t IH]; intros m fields buf parsed final H.
  - simpl in H. destruct m; injection H as <- <-; repeat constructor;
      now destruct fields.
  - simpl in H. destruct (csv_step m c).
    + eapply IH; eassumption.
    + eapply IH; eassumption.
    + eapply IH; eassumption.
    + eapply IH; eassumption.
    + eapply IH; eassumption.
    + destruct (csv_scan RecordStart [] "" t) as [more e] eqn:E.
      injection H as <- <-. constructor.
      * now destruct fields.
      * eapply IH; eassumption.
    + injection H as <- <-. constructor.
Qed.

(** Without a field count to check, [ReadAll] hands out the records as
    they were parsed. *)
Lemma ReadAll_loop_unchecked parsed final : forall records,
  csv_ReadAll_loop (-1) parsed final records
  = match final with
    | None => (records ++ parsed, None)
    | Some e => ([], Some e)
    end.
Proof.
  induction parsed as [|r rs IH]; intros records; simpl.
  - destruct final; [reflexivity | now rewrite app_nil_r].
  - rewrite IH. destruct final; [reflexivity | now rewrite <- app_assoc].
Qed.

(** With a positive field count, the first record of another length
    ends [ReadAll] with [ErrFieldCount]. *)
Lemma ReadAll_loop_checked (n : Z) parsed final : forall records,
  (0 < n)%Z ->
  csv_ReadAll_loop n parsed final records
  = if forallb (fun r => (len r =? n)%Z) parsed
    then match final with
         | None => (records ++ parsed, None)
         | Some e => ([], Some e)
         end
    else ([], Some ErrFieldCount).
Proof.
  intros records Hn. revert records.
  induction parsed as [|r rs IH]; intros records; simpl.
  - destruct final; [reflexivity | now rewrite app_nil_r].
  - unfold csv_checkFields.
    destruct (Z.gtb_spec n 0); [|lia].
    destruct (len r =? n)%Z; simpl.
    + rewrite IH. destruct (forallb _ rs); [|reflexivity].
      destruct final; [reflexivity | now rewrite <- app_assoc].
    + reflexivity.
Qed.

(** [ReadAll] with the default setting: the first record fixes the
    field count. *)
Lemma ReadAll_loop_default parsed final :
  Forall (fun record => record <> []) parsed ->
  csv_ReadAll_loop 0 parsed final []
  = if forallb (fun r => (len r =? len (hd [] parsed))%Z) parsed
    then match final with
         | None => (parsed, None)
         | Some e => ([], Some e)
         end
    else ([], Some ErrFieldCount).
Proof.
  intros Hne. destruct parsed as [|r rs]; simpl.
  - now destruct final.
  - unfold csv_checkFields. simpl.
    rewrite ReadAll_loop_checked.
    + rewrite Z.eqb_refl. reflexivity.
    + inversion Hne; subst. unfold len. destruct r; [congruence | simpl; lia].
Qed.

(** The records [ReadAll] returns all have as many fields as the
    first. *)
Lemma csv_ReadAll_uniform (r : string) (records : list (list string)) :
  csv_ReadAll r = (records, None) ->
  Forall (fun row => List.length row = List.length (hd [] records)) records.
Proof.
  unfold csv_ReadAll, csv_ReadAll_with.
  destruct (csv_scan RecordStart [] "" (csv_normalize r)) as [parsed final] eqn:E.
  rewrite ReadAll_loop_default by (eapply csv_scan_nonempty; eassumption).
  destruct (forallb _ parsed) eqn:F; [|discriminate].
  destruct final; [discriminate|]. injection 1 as <-.
  rewrite forallb_forall in F. apply Forall_forall. intros row Hrow.
  specialize (F row Hrow). apply Z.eqb_eq in F. unfold len in F. lia.
Qed.

(** Rows of different lengths make [ReadAll] fail. *)
Lemma csv_ReadAll_ragged (r : string) (rows : list (list string)) :
  csv_ReadAll_with (-1) r = (rows, None) ->
  (exists row, In row rows /\ List.length row <> List.length (hd [] rows)) ->
  csv_ReadAll r = ([], Some ErrFieldCount).
Proof.
  unfold csv_ReadAll, csv_ReadAll_with.
  destruct (csv_scan RecordStart [] "" (csv_normalize r)) as [parsed final] eqn:E.
  rewrite ReadAll_loop_unchecked.
  destruct final; [discriminate|]. injection 1 as <-. simpl.
  intros (row & Hin & Hlen).
  rewrite ReadAll_loop_default by (eapply csv_scan_nonempty; eassumption).
  destruct (forallb _ parsed) eqn:F; [|reflexivity].
  exfalso. rewrite forallb_forall in F. specialize (F row Hin).
  apply Z.eqb_eq in F. unfold len in F. lia.
Qed.

(** The rows of the scenario's spreadsheet. *)
Lemma csv_ReadAll_scenario :
  csv_ReadAll scenario_csv
  = ([["date"; "description"; "article"; "activity"; "branch"; "detail"];
      ["1/2/2017"; "Bill signed"; "http://x/1"; "signing"; "executive";
       "Some detail"];
      ["1/5/2017"; "Vote held"; "http://x/2"; "vote"; "legislative";
       "Another detail"]], None).
Proof. vm_compute. reflexivity. Qed.

(* ================================================================== *)
(** ** The feed builder *)

Lemma wrap64_small (z : Z) :
  (- 2 ^ 63 <= z < 2 ^ 63)%Z -> wrap64 z = z.
Proof.
  intros H. unfold wrap64. rewrite Z.mod_small; lia.
Qed.

Section BuilderFacts.
Context {TP : TimePkg}.

(** The loop appends one item per index from [i] down to [start + 1],
    in that order. *)
Lemma fromCSV_loop_items (start : Z) headers records : forall i out tick,
  (0 <= start)%Z ->
  exists new,
    fst (fromCSV_loop i start headers records out tick) = out ++ new
    /\ List.length new = Z.to_nat (Z.of_nat i - start)
    /\ forall k, (k < List.length new)%nat ->
         exists t, nth k new new_item
                   = fst (fromRecord new_item headers (nth (i - k) records []) t).
Proof.
  induction i as [|j IH]; intros out tick Hs.
  - exists []. cbn [fromCSV_loop]. rewrite Z.gtb_ltb.
    destruct (Z.ltb_spec start (Z.of_nat 0)); [exfalso; lia|].
    cbn [fst List.length]. rewrite app_nil_r. repeat split; [lia|].
    intros k Hk. inversion Hk.
  - cbn [fromCSV_loop]. rewrite Z.gtb_ltb.
    destruct (Z.ltb_spec start (Z.of_nat (S j))).
    + destruct (fromRecord new_item headers (nth (S j) records []) tick)
        as [e tick'] eqn:E.
      destruct (IH (out ++ [e]) tick' Hs) as (new & Hout & Hlen & Hnth).
      exists (e :: new). rewrite Hout, <- app_assoc. repeat split.
      * cbn [List.length]. lia.
      * intros [|k] Hk.
        -- exists tick. rewrite Nat.sub_0_r, E. reflexivity.
        -- cbn [List.length] in Hk.
           destruct (Hnth k) as [t Ht]; [lia|].
           exists t. cbn [nth]. rewrite Ht.
           replace (S j - S k)%nat with (j - k)%nat by lia. reflexivity.
    + exists []. cbn [fst List.length]. rewrite app_nil_r. repeat split; [lia|].
      intros k Hk. inversion Hk.
Qed.

(** What [fromCSV] builds from at least two rows, for a positive
    [maxRecords]: the rows from the last one down to, and without, row
    [start], newest first; that is one item less than
    [min(maxRecords, rowCount - 1)]. *)
Lemma fromCSV_entries (r : string) (records : list (list string))
      (maxRecords : Z) (rs : rss) (tick : nat) :
  csv_ReadAll r = (records, None) ->
  (2 <= len records < 2 ^ 63)%Z ->
  (1 <= maxRecords < 2 ^ 63)%Z ->
  exists items tick',
    fromCSV rs r maxRecords tick
    = Returned None (mkRss "2.0" (Some (mkChannel Title URL Desc items))) tick'
    /\ Z.of_nat (List.length items) = (Z.min maxRecords (len records - 1) - 1)%Z
    /\ forall k, (k < List.length items)%nat ->
         exists t, nth k items new_item
                   = fst (fromRecord new_item (nth 0 records [])
                            (nth (List.length records - 1 - k) records []) t).
Proof.
  intros Hread Hlen Hmax. unfold fromCSV. rewrite Hread.
  destruct (Z.leb_spec (len records) 1); [lia|].
  rewrite (wrap64_small (len records - maxRecords)%Z) by lia.
  set (start := if (len records - maxRecords <=? 0)%Z then 1%Z
                else (len records - maxRecords)%Z).
  assert (Hstart : (1 <= start <= len records - 1)%Z
                   /\ (len records - 1 - start
                       = Z.min maxRecords (len records - 1) - 1)%Z).
  { unfold start. destruct (Z.leb_spec (len records - maxRecords) 0); lia. }
  rewrite (wrap64_small (len records - start)%Z) by lia.
  destruct (Z.ltb_spec (len records - start) 0); [lia|].
  destruct (fromCSV_loop_items start (nth 0 records []) records
              (List.length records - 1) [] tick) as (new & Hout & Hcount & Hnth);
    [lia|].
  destruct (fromCSV_loop (List.length records - 1) start (nth 0 records [])
              records [] tick) as [out tick'].
  cbn [fst app] in Hout. subst out.
  exists new, tick'. repeat split.
  - rewrite Hcount. unfold len in *. lia.
  - exact Hnth.
Qed.

(** C1, on the code.  The scenario's spreadsheet has three rows, so
    [min(N, rowCount - 1)] is 2 for [N = 20]; [fromCSV] builds a feed
    of one item: the loop stops before row [start], the oldest row
    selected. *)
Theorem fromCSV_scenario_count (rs : rss) (tick : nat) :
  exists rs' tick',
    fromCSV rs scenario_csv 20 tick = Returned None rs' tick'
    /\ feed_count rs' = 1%nat
    /\ List.length (fst (csv_ReadAll scenario_csv)) = 3%nat.
Proof.
  unfold fromCSV. rewrite csv_ReadAll_scenario. cbn.
  eexists. eexists. repeat split.
Qed.

(** C2, on the code.  For the scenario's spreadsheet and [N = 20] the
    feed has the one item of the newer row, "Vote held"; the item of
    the row "Bill signed" is missing. *)
Theorem fromCSV_scenario_entries (rs : rss) (tick : nat) :
  exists rs' tick',
    fromCSV rs scenario_csv 20 tick = Returned None rs' tick'
    /\ feed_entries rs' = [("Vote held", "http://x/2", "vote,legislative")].
Proof.
  unfold fromCSV. rewrite csv_ReadAll_scenario. cbn.
  eexists. eexists. split; reflexivity.
Qed.

(** C3.  When the reader delivers at most one row, [fromCSV] returns
    the error "no records" and leaves the feed as it was. *)
Theorem fromCSV_no_records (r : string) (records : list (list string)) :
  csv_ReadAll r = (records, None) ->
  (List.length records <= 1)%nat ->
  forall rs maxRecords tick,
    fromCSV rs r maxRecords tick
    = Returned (Some (errors_New "no records")) rs tick.
Proof.
  intros Hread Hlen rs maxRecords tick. unfold fromCSV. rewrite Hread.
  destruct (Z.leb_spec (len records) 1); [reflexivity|].
  unfold len in *. lia.
Qed.

(** C10.  When the rows of the input, read without a check of the
    field count, differ in length from the first, [fromCSV] returns the
    reader's [ErrFieldCount].  And whenever the reader succeeds, every
    row has as many fields as the header: for every column index of
    the header, [get] finds the field in the row. *)
Theorem fromCSV_ragged (r : string) :
  (forall rows,
      csv_ReadAll_with (-1) r = (rows, None) ->
      (exists row, In row rows
                   /\ List.length row <> List.length (hd [] rows)) ->
      forall rs maxRecords tick,
        fromCSV rs r maxRecords tick
        = Returned (Some (csv_ParseError ErrFieldCount)) rs tick)
  /\ (forall records,
        csv_ReadAll r = (records, None) ->
        forall fields i,
          In fields records ->
          (i < List.length (nth 0 records []))%nat ->
          List.length fields = List.length (nth 0 records [])
          /\ nth_error fields i = Some (get fields i)).
Proof.
  split.
  - intros rows Hrows Hragged rs maxRecords tick. unfold fromCSV.
    now rewrite (csv_ReadAll_ragged _ _ Hrows Hragged).
  - intros records Hread fields i Hin Hi.
    pose proof (csv_ReadAll_uniform _ _ Hread) as Hall.
    rewrite Forall_forall in Hall. specialize (Hall fields Hin).
    replace (hd [] records) with (nth 0 records []) in Hall
      by (now destruct records).
    split; [exact Hall|]. apply get_in_range. lia.
Qed.

End BuilderFacts.

(** An empty input, and a header alone. *)
Lemma fromCSV_no_records_witness :
  @fromCSV epoch_time new_rss "" 20 0
  = Returned (Some (errors_New "no records")) new_rss 0
  /\ @fromCSV epoch_time new_rss "date,description" 20 0
     = Returned (Some (errors_New "no records")) new_rss 0.
Proof.
  split.
  - apply (@fromCSV_no_records epoch_time "" []).
    + vm_compute. reflexivity.
    + simpl. lia.
  - apply (@fromCSV_no_records epoch_time "date,description"
             [["date"; "description"]]).
    + vm_compute. reflexivity.
    + simpl. lia.
Defined.

(** A header of two columns and a row of one. *)
Lemma fromCSV_ragged_witness :
  @fromCSV epoch_time new_rss ("a,b" ++ newline ++ "c" ++ newline) 20 0
  = Returned (Some (csv_ParseError ErrFieldCount)) new_rss 0.
Proof.
  apply (proj1 (@fromCSV_ragged epoch_time ("a,b" ++ newline ++ "c" ++ newline))
               [["a"; "b"]; ["c"]]).
  - vm_compute. reflexivity.
  - exists ["c"]. split; [simpl; auto | simpl; lia].
Defined.

(* ================================================================== *)
(** ** The cache, its publisher and the handler *)

Lemma remove_spaces_hex_byte (c : ascii) (s : string) :
  remove_spaces (hex_byte c ++ s) = (hex_byte c ++ remove_spaces s)%string.
Proof. destruct c as [[] [] [] [] [] [] [] []]; reflexivity. Qed.

(** The digest format is the plain hex encoding with a space put
    between the bytes. *)
Lemma Sprintf_space_x_hex (hash : string) :
  remove_spaces (fmt_Sprintf_space_x hash) = hex_EncodeToString hash.
Proof.
  induction hash as [|c rest IH]; [reflexivity|].
  destruct rest as [|c' rest'].
  - cbn [fmt_Sprintf_space_x hex_EncodeToString].
    replace (hex_byte c) with (hex_byte c ++ "")%string at 1
      by (destruct c as [[] [] [] [] [] [] [] []]; reflexivity).
    now rewrite remove_spaces_hex_byte.
  - change (fmt_Sprintf_space_x (String c (String c' rest')))
      with (hex_byte c ++ " " ++ fmt_Sprintf_space_x (String c' rest'))%string.
    rewrite remove_spaces_hex_byte.
    change (remove_spaces (" " ++ fmt_Sprintf_space_x (String c' rest')))
      with (remove_spaces (fmt_Sprintf_space_x (String c' rest'))).
    now rewrite IH.
Qed.

Lemma xml_Marshal_not_empty (v : rss) : (0 < String.length (xml_Marshal v))%nat.
Proof. unfold xml_Marshal. simpl. lia. Qed.

Section PublisherFacts.
Context {TP : TimePkg} {HP : HashPkg}.

Lemma marshalled_not_empty (content : string) :
  marshalled content -> (0 < String.length content)%nat.
Proof.
  intros (got & tick & tick' & H). unfold refresh_content in H.
  destruct got as [|r]; [discriminate|].
  destruct (fromCSV new_rss r NumEntries tick) as [[e|] feed t|msg];
    try discriminate.
  injection H as <- _. apply xml_Marshal_not_empty.
Qed.

Lemma step_inv (p p' : process) :
  process_inv p -> step p p' -> process_inv p'.
Proof.
  intros Hinv Hstep.
  destruct Hstep as [s tick got content tick' Hc | s tick got Hc
                     | s tick w todo | s tick | s g tick];
    unfold process_inv in *; cbn [handler refresher] in *.
  - exists content. split; [now exists got, tick, tick'|]. left. now split.
  - congruence.
  - destruct Hinv
      as (content & Hm
          & [(Ht & Hr)|[(Ht & Hr & Hd)|[(Ht & Hr & Hd & Hc)|(Ht & _)]]]);
      try discriminate Ht; exists content; (split; [exact Hm|]).
    + injection Ht as -> ->. right. left. now repeat split.
    + injection Ht as -> ->. right. right. left. now repeat split.
    + injection Ht as -> ->. right. right. right. now repeat split.
  - destruct Hinv
      as (content & Hm
          & [(Ht & _)|[(Ht & _)|[(Ht & _)|(_ & Hr & Hd & Hc)]]]);
      try discriminate Ht.
    exists content. now repeat split.
  - intros Hready. destruct g.
    + congruence.
    + destruct Hinv
        as (content & Hm
            & [(_ & Hr)|[(_ & Hr & _)|[(_ & Hr & _)|(_ & _ & Hd & Hc)]]]);
        try congruence.
      subst content. now split.
    + destruct Hinv as (content & Hm & _ & Hd & Hc). subst content. now split.
    + now apply Hinv.
Qed.

Lemma reachable_inv (key : string) (p : process) :
  reachable key p -> process_inv p.
Proof.
  induction 1 as [|p p' _ IH Hstep].
  - reflexivity.
  - exact (step_inv p p' IH Hstep).
Qed.

(** Once the flag is set the cache holds what [refresh] marshalled,
    and the digest is the digest of the cache. *)
Lemma ready_cached (key : string) (p : process) :
  reachable key p -> ready (handler p) = true ->
  marshalled (cached (handler p))
  /\ digest (handler p) = digest_of (cached (handler p)).
Proof.
  intros Hreach Hready. pose proof (reachable_inv key p Hreach) as Hinv.
  unfold process_inv in Hinv. destruct (refresher p).
  - congruence.
  - destruct Hinv
      as (content & Hm
          & [(_ & Hr)|[(_ & Hr & _)|[(_ & Hr & _)|(_ & _ & Hd & Hc)]]]);
      try congruence.
    subst content. now split.
  - destruct Hinv as (content & Hm & _ & Hd & Hc). subst content. now split.
  - now apply Hinv.
Qed.

(** C6.  In every state the process can be in, a request to the
    handler is answered as follows: a GET with the flag set, by status
    200 and the XML declaration followed by the cached bytes; a GET
    with the flag not set, by status 404 and an empty body; any other
    method, by status 405.  No other status is sent. *)
Theorem ServeHTTP_status (key : string) (p : process) (method : string) :
  reachable key p ->
  let s := handler p in
  let w := ServeHTTP s new_response method in
  (method = MethodGet -> ready s = true ->
   sent_status w = StatusOK /\ body w = (xml_declaration ++ cached s)%string)
  /\ (method = MethodGet -> ready s = false ->
      sent_status w = StatusNotFound /\ body w = "")
  /\ (method <> MethodGet ->
      sent_status w = StatusMethodNotAllowed /\ body w = "")
  /\ (sent_status w = StatusOK \/ sent_status w = StatusNotFound
      \/ sent_status w = StatusMethodNotAllowed).
Proof.
  intros Hreach s w.
  assert (Hget : method = MethodGet -> ready s = true ->
                 w = mkResponse (Some StatusOK)
                                (xml_declaration ++ cached s)%string).
  { intros -> Hready. subst w. unfold ServeHTTP.
    simpl (negb _). rewrite Hready.
    destruct (ready_cached key p Hreach Hready) as [Hm _].
    apply marshalled_not_empty in Hm. fold s in Hm.
    destruct (Nat.ltb_spec 0 (String.length (cached s))); [|lia].
    reflexivity. }
  assert (Hnot : method = MethodGet -> ready s = false ->
                 w = mkResponse (Some StatusNotFound) "").
  { intros -> Hready. subst w. unfold ServeHTTP. simpl (negb _).
    now rewrite Hready. }
  assert (Hother : method <> MethodGet ->
                   w = mkResponse (Some StatusMethodNotAllowed) "").
  { intros Hne. subst w. unfold ServeHTTP.
    destruct (String.eqb_spec method MethodGet); [contradiction|reflexivity]. }
  repeat split.
  - now rewrite Hget.
  - now rewrite Hget.
  - now rewrite Hnot.
  - now rewrite Hnot.
  - now rewrite Hother.
  - now rewrite Hother.
  - destruct (String.eqb_spec method MethodGet) as [Heq|Hne].
    + destruct (ready s) eqn:Hr.
      * left. now rewrite Hget.
      * right. left. now rewrite Hnot.
    + right. right. now rewrite Hother.
Qed.

(** C8.  The flag is not set in the state [main] starts from; no step
    of the process clears it; and the one step that sets it is the
    last assignment of a [refresh] that got past [xml.Marshal], taken
    when the cache and the digest already hold the new content. *)
Theorem ready_monotone (key : string) :
  ready (handler (main key)) = false
  /\ (forall p p', step p p' ->
                   ready (handler p) = true -> ready (handler p') = true)
  /\ (forall p p',
        reachable key p -> step p p' ->
        ready (handler p) = false -> ready (handler p') = true ->
        exists content,
          marshalled content
          /\ refresher p = Storing [StoreReady]
          /\ cached (handler p) = content
          /\ digest (handler p) = digest_of content
          /\ handler p' = apply_store (handler p) StoreReady).
Proof.
  split; [reflexivity|]. split.
  - intros p p' Hstep Hready.
    destruct Hstep as [| | s tick w todo | |]; cbn [handler] in *;
      try assumption.
    destruct w; exact Hready || reflexivity.
  - intros p p' Hreach Hstep Hfalse Htrue.
    pose proof (reachable_inv key p Hreach) as Hinv.
    destruct Hstep as [| | s tick w todo | |]; cbn [handler refresher] in *;
      try congruence.
    unfold process_inv in Hinv. cbn [handler refresher] in Hinv.
    destruct Hinv
      as (content & Hm
          & [(Ht & _)|[(Ht & _)|[(Ht & _ & Hd & Hc)|(Ht & _)]]]);
      try discriminate Ht.
    + injection Ht as -> ->. cbn in Htrue. congruence.
    + injection Ht as -> ->. cbn in Htrue. congruence.
    + injection Ht as -> ->. exists content. now repeat split.
Qed.

(** C9, amended.  When [refresh] runs to its end, the digest it leaves
    is the SHA-1 sum of the bytes it leaves in the cache, written as
    [% x] writes it: two lower-case hex digits per byte with a space
    between the bytes.  It is the plain hex encoding of the sum once
    the spaces are taken out, not that encoding itself; and the flag
    is set. *)
Theorem refresh_digest (s : sheet2rss) (got : fetched) (tick : nat)
        (s' : sheet2rss) (tick' : nat) :
  refresh s got tick = Some (s', tick') ->
  digest s' = fmt_Sprintf_space_x (sha1_Sum (cached s'))
  /\ remove_spaces (digest s') = hex_EncodeToString (sha1_Sum (cached s'))
  /\ ready s' = true.
Proof.
  unfold refresh.
  destruct (refresh_content got tick) as [[content t]|]; [|discriminate].
  injection 1 as <- _. cbn. repeat split. apply Sprintf_space_x_hex.
Qed.

End PublisherFacts.

(** The scenario's spreadsheet is fetched, marshalled and published. *)
Lemma scenario_content :
  @refresh_content epoch_time (FetchBody scenario_csv) 0
  = Some (xml_Marshal scenario_feed, 0%nat).
Proof. vm_compute. reflexivity. Defined.

Lemma scenario_reachable :
  @reachable epoch_time SHA1.pkg "KEY" scenario_process.
Proof.
  unfold scenario_process, refresh_stores. cbn [fold_left].
  eapply reach_step; [|apply step_return].
  eapply reach_step; [|apply step_store].
  eapply reach_step; [|apply step_store].
  eapply reach_step; [|apply step_store].
  eapply reach_step; [apply reach_main|].
  apply (@step_content epoch_time SHA1.pkg _ _ _ _ _ scenario_content).
Defined.

(** After the refresh of the scenario a GET is answered with 200. *)
Lemma ServeHTTP_status_witness :
  @reachable epoch_time SHA1.pkg "KEY" scenario_process
  /\ sent_status (ServeHTTP (handler scenario_process) new_response "GET")
     = StatusOK
  /\ body (ServeHTTP (handler scenario_process) new_response "GET")
     = (xml_declaration ++ xml_Marshal scenario_feed)%string.
Proof.
  split; [exact scenario_reachable|].
  apply (proj1 (@ServeHTTP_status epoch_time SHA1.pkg "KEY" scenario_process
                  "GET" scenario_reachable)); reflexivity.
Defined.

(** The last assignment of the scenario's refresh sets the flag. *)
Lemma ready_monotone_witness :
  ready (handler (@main "KEY")) = false
  /\ ready (handler scenario_process) = true.
Proof.
  split.
  - exact (proj1 (@ready_monotone epoch_time SHA1.pkg "KEY")).
  - apply (proj1 (proj2 (@ready_monotone epoch_time SHA1.pkg "KEY"))
             (mkProcess (handler scenario_process) (Storing []) 0)
             scenario_process).
    + apply step_return.
    + reflexivity.
Defined.

(** The digest of the scenario's feed. *)
Lemma refresh_digest_witness :
  @refresh epoch_time SHA1.pkg (new_sheet2rss "") (FetchBody scenario_csv) 0
  = Some (fold_left apply_store
            (@refresh_stores SHA1.pkg (xml_Marshal scenario_feed))
            (new_sheet2rss ""), 0%nat)
  /\ remove_spaces
       (digest (fold_left apply_store
                  (@refresh_stores SHA1.pkg (xml_Marshal scenario_feed))
                  (new_sheet2rss "")))
     = "2fe077aee38a02c535d3dc81b8098a5ab946a721".
Proof.
  assert (H : @refresh epoch_time SHA1.pkg (new_sheet2rss "")
                (FetchBody scenario_csv) 0
              = Some (fold_left apply_store
                        (@refresh_stores SHA1.pkg (xml_Marshal scenario_feed))
                        (new_sheet2rss ""), 0%nat))
    by (vm_compute; reflexivity).
  split; [exact H|].
  rewrite (proj1 (proj2 (@refresh_digest epoch_time SHA1.pkg _ _ _ _ _ H))).
  vm_compute. reflexivity.
Defined.

(** The two formats differ in length as soon as there are two bytes:
    [% x] writes three characters per byte but for the last, the plain
    encoding two. *)
Lemma hex_byte_app_length (c : ascii) (s : string) :
  String.length (hex_byte c ++ s) = S (S (String.length s)).
Proof. reflexivity. Qed.

Lemma hex_EncodeToString_length (hash : string) :
  String.length (hex_EncodeToString hash) = 2 * String.length hash.
Proof.
  induction hash as [|c rest IH]; [reflexivity|].
  cbn [hex_EncodeToString]. rewrite hex_byte_app_length, IH.
  cbn [String.length]. lia.
Qed.

Lemma Sprintf_space_x_length (hash : string) :
  S (String.length (fmt_Sprintf_space_x hash)) = 3 * String.length hash
  \/ hash = "".
Proof.
  induction hash as [|c rest IH]; [now right|left].
  destruct rest as [|c' rest']; [reflexivity|].
  change (fmt_Sprintf_space_x (String c (String c' rest')))
    with (hex_byte c ++ " " ++ fmt_Sprintf_space_x (String c' rest'))%string.
  rewrite hex_byte_app_length.
  destruct IH as [IH|IH]; [|discriminate IH].
  cbn [String.append String.length] in *. lia.
Qed.

Lemma Sprintf_space_x_not_hex (hash : string) :
  2 <= String.length hash ->
  fmt_Sprintf_space_x hash <> hex_EncodeToString hash.
Proof.
  intros Hlen Heq.
  pose proof (hex_EncodeToString_length hash) as Hh.
  destruct (Sprintf_space_x_length hash) as [Hs|Hs].
  - rewrite Heq in Hs. lia.
  - subst hash. cbn in Hlen. lia.
Qed.

(** C9, as stated, fails.  After the refresh of the scenario the digest
    is the SHA-1 sum of the cached bytes with a space between the
    bytes, 59 characters; the hex encoding of the same sum has 40, and
    the two strings differ. *)
Lemma refresh_digest_not_hex :
  @refresh epoch_time SHA1.pkg (handler (main "KEY"))
           (FetchBody scenario_csv) 0
  = Some (handler scenario_process, 0%nat)
  /\ digest (handler scenario_process)
     = "2f e0 77 ae e3 8a 02 c5 35 d3 dc 81 b8 09 8a 5a b9 46 a7 21"
  /\ hex_EncodeToString (SHA1.Sum (cached (handler scenario_process)))
     = "2fe077aee38a02c535d3dc81b8098a5ab946a721"
  /\ digest (handler scenario_process)
     <> hex_EncodeToString (SHA1.Sum (cached (handler scenario_process))).
Proof.
  split; [vm_compute; reflexivity|].
  split; [vm_compute; reflexivity|].
  split; [vm_compute; reflexivity|].
  vm_compute. discriminate.
Qed.

(* ================================================================== *)
(** ** The marshaller and the reader of the feed format *)

Lemma lor_lower (a b : Z) :
  (0 <= a)%Z -> (0 <= b)%Z -> (a <= Z.lor a b /\ b <= Z.lor a b)%Z.
Proof.
  intros Ha Hb.
  pose proof (Z.sub_lor_l_same_r a b) as H1.
  pose proof (Z.sub_lor_l_same_r b a) as H2. rewrite Z.lor_comm in H2.
  assert (0 <= Z.land a (Z.lnot b))%Z by (apply Z.land_nonneg; now left).
  assert (0 <= Z.land b (Z.lnot a))%Z by (apply Z.land_nonneg; now left).
  lia.
Qed.

Lemma land_low (b n : Z) :
  (0 <= n)%Z -> Z.land b (Z.ones n) = (b mod 2 ^ n)%Z.
Proof. intros. now apply Z.land_ones. Qed.

Lemma byte_val_range (c : ascii) : (0 <= byte_val c < 256)%Z.
Proof.
  unfold byte_val. pose proof (N_ascii_bounded c) as H. lia.
Qed.

(** Turns the boolean tests in the context into propositions. *)
Ltac tests_to_props :=
  repeat match goal with
  | H : (_ || _) = false |- _ => apply orb_false_elim in H; destruct H
  | H : (_ && _) = true |- _ => apply andb_prop in H; destruct H
  | H : negb _ = false |- _ => apply negb_false_iff in H
  | H : negb _ = true |- _ => apply negb_true_iff in H
  | H : (_ <? _)%Z = true |- _ => apply Z.ltb_lt in H
  | H : (_ <? _)%Z = false |- _ => apply Z.ltb_ge in H
  | H : (_ <=? _)%Z = true |- _ => apply Z.leb_le in H
  | H : (_ <=? _)%Z = false |- _ => apply Z.leb_gt in H
  | H : (_ =? _)%Z = true |- _ => apply Z.eqb_eq in H
  | H : (_ =? _)%Z = false |- _ => apply Z.eqb_neq in H
  | H : (_ <? _)%nat = true |- _ => apply Nat.ltb_lt in H
  | H : (_ <? _)%nat = false |- _ => apply Nat.ltb_ge in H
  | H : (_ <=? _)%nat = true |- _ => apply Nat.leb_le in H
  | H : (_ <=? _)%nat = false |- _ => apply Nat.leb_gt in H
  end.

(** The value of a multi-byte rune, bounded from below. *)
Ltac rune_bound :=
  change 31%Z with (Z.ones 5); change 15%Z with (Z.ones 4);
  change 7%Z with (Z.ones 3); change 63%Z with (Z.ones 6);
  rewrite ?land_low, ?Z.shiftl_mul_pow2 by lia;
  change (2 ^ 3)%Z with 8%Z; change (2 ^ 4)%Z with 16%Z;
  change (2 ^ 5)%Z with 32%Z; change (2 ^ 6)%Z with 64%Z;
  change (2 ^ 12)%Z with 4096%Z; change (2 ^ 18)%Z with 262144%Z;
  repeat match goal with
  | |- context [Z.lor ?a ?b] =>
      let H := fresh "Hlor" in
      assert (H : (a <= Z.lor a b /\ b <= Z.lor a b)%Z)
        by (apply lor_lower; [|]; Z.div_mod_to_equations; lia);
      generalize dependent (Z.lor a b); intros
  end;
  Z.div_mod_to_equations; lia.

(** What [utf8.DecodeRune] returns on a string that is not empty: an
    ASCII byte, an error of width 1, or a rune of two to four bytes
    that are all 128 or more. *)
#[local] Opaque Z.shiftl Z.land Z.lor.

Lemma DecodeRune_cases (c : ascii) (t : string) :
  forall r w, utf8_DecodeRune (String c t) = (r, w) ->
    (w = 1%nat /\ r = byte_val c /\ (r < 128)%Z)
    \/ (w = 1%nat /\ r = RuneError)
    \/ ((2 <= w)%nat /\ (w <= S (String.length t))%nat /\ (128 <= r)%Z
        /\ all_high (string_take w (String c t)) = true).
Proof.
  intros r w. unfold utf8_DecodeRune, utf8_accept, is_cont.
  pose proof (byte_val_range c) as Hc.
  destruct (byte_val c <? 128)%Z eqn:E0.
  { injection 1 as <- <-. tests_to_props. left. auto. }
  destruct ((byte_val c <? 194)%Z || (244 <? byte_val c)%Z) eqn:E1.
  { injection 1 as <- <-. right. left. auto. }
  tests_to_props.
  destruct (byte_val c <? 224)%Z eqn:E2;
    [|destruct (byte_val c <? 240)%Z eqn:E3]; tests_to_props;
    repeat match goal with
    | |- context [(byte_val c =? ?k)%Z] => destruct (Z.eqb_spec (byte_val c) k)
    end; try (exfalso; lia); cbv beta iota.
  all: repeat match goal with
       | |- context [match ?s with EmptyString => _ | String _ _ => _ end] =>
           is_var s; destruct s
       end; cbn [Nat.leb Nat.ltb String.length].
  all: try (injection 1 as <- <-; right; left; split; reflexivity).
  all: repeat match goal with
       | |- context [if ?b then _ else _] => destruct b eqn:?
       end.
  all: try (injection 1 as <- <-; right; left; split; reflexivity).
  all: injection 1 as <- <-; right; right; tests_to_props.
  all: cbn [string_take all_high String.length].
  all: repeat match goal with
       | |- context [byte_val ?x] =>
           pose proof (byte_val_range x); generalize dependent (byte_val x); intros
       end.
  all: repeat split; try lia.
  all: try rune_bound.
Qed.

#[local] Transparent Z.shiftl Z.land Z.lor.

Lemma byte_of_val (c : ascii) : byte_of (byte_val c) = c.
Proof.
  unfold byte_of, byte_val. rewrite N2Z.id. apply ascii_N_embedding.
Qed.

Lemma byte_val_neq (c x : ascii) :
  byte_val c <> byte_val x -> (c =? x)%char = false.
Proof.
  intros H. apply Ascii.eqb_neq. intros ->. now apply H.
Qed.

Lemma has_char_app (x : ascii) (a b : string) :
  has_char x (a ++ b) = has_char x a || has_char x b.
Proof.
  induction a as [|c a IH]; simpl; [reflexivity|].
  now rewrite IH, orb_assoc.
Qed.

Lemma all_high_has_char (x : ascii) (s : string) :
  (byte_val x < 128)%Z -> all_high s = true -> has_char x s = false.
Proof.
  intros Hx. induction s as [|c s IH]; simpl; [reflexivity|].
  intros H. apply andb_prop in H. destruct H as [Hc Hs].
  apply Z.leb_le in Hc. rewrite (IH Hs), byte_val_neq by lia. reflexivity.
Qed.

Lemma unescape_high (a rest : string) :
  all_high a = true ->
  xml_unescape None (a ++ rest) = option_map (append a) (xml_unescape None rest).
Proof.
  induction a as [|c a IH]; simpl; intros H.
  - now destruct (xml_unescape None rest).
  - apply andb_prop in H. destruct H as [Hc Ha]. apply Z.leb_le in Hc.
    rewrite (byte_val_neq c "&") by (change (byte_val "&") with 38%Z; lia).
    rewrite (IH Ha). now destruct (xml_unescape None rest).
Qed.

Lemma string_take_drop (n : nat) (s : string) :
  (string_take n s ++ string_drop n s)%string = s.
Proof.
  revert s. induction n as [|n IH]; intros [|c s]; simpl; try reflexivity.
  now rewrite IH.
Qed.

(** What [escapeText] writes for one rune: it holds neither [<] nor a
    double quote, and unless the rune was replaced the reader takes
    it back to the bytes of the rune. *)
Lemma escape_rune_spec (c : ascii) (t : string) (r : Z) (w : nat) :
  utf8_DecodeRune (String c t) = (r, w) ->
  let bytes := string_take w (String c t) in
  let out := xml_escape_rune r w bytes in
  (1 <= w)%nat
  /\ has_char "<" out = false
  /\ has_char ch_quote out = false
  /\ (xml_replaced r w = false ->
      forall rest, xml_unescape None (out ++ rest)
                   = option_map (append bytes) (xml_unescape None rest)).
Proof.
  intros Hdec bytes out. subst bytes out.
  destruct (DecodeRune_cases c t r w Hdec)
    as [(-> & Hr & Hlow)|[(-> & ->)|(Hw & Hlen & Hhigh & Hbytes)]].
  - (* an ASCII byte *)
    cbn [string_take]. unfold xml_escape_rune.
    repeat match goal with
    | |- context [(r =? ?k)%Z] =>
        let Hk := fresh "Hk" in
        destruct (Z.eqb_spec r k) as [Hk|Hk];
        [ rewrite Hk in Hr; apply (f_equal byte_of) in Hr;
          rewrite byte_of_val in Hr; subst c;
          repeat split; try reflexivity; try lia;
          intros _ rest; cbn; now destruct (xml_unescape None rest) |]
    end.
    destruct (xml_replaced r 1) eqn:Hrep.
    + repeat split; try reflexivity; try lia; discriminate.
    + cbn [has_char]. rewrite Hr in *.
      rewrite !byte_val_neq, ?orb_false_r by assumption.
      repeat split; try reflexivity; try lia.
      intros _ rest. cbn [append xml_unescape].
      rewrite (byte_val_neq c "&") by assumption.
      now destruct (xml_unescape None rest).
  - (* an invalid byte *)
    repeat split; try reflexivity; try lia; discriminate.
  - (* a rune of several bytes *)
    unfold xml_escape_rune.
    repeat match goal with
    | |- context [(r =? ?k)%Z] => destruct (Z.eqb_spec r k); [exfalso; lia|]
    end.
    destruct (xml_replaced r w) eqn:Hrep.
    + repeat split; try reflexivity; try lia; discriminate.
    + repeat split; try lia.
      * apply all_high_has_char; [reflexivity | exact Hbytes].
      * apply all_high_has_char; [reflexivity | exact Hbytes].
      * intros _ rest. now apply unescape_high.
Qed.

Lemma escapeText_no_lt_quote (s : string) : forall skip,
  has_char "<" (xml_escapeText skip s) = false
  /\ has_char ch_quote (xml_escapeText skip s) = false.
Proof.
  induction s as [|c t IH]; intros skip; [now split|].
  destruct skip as [|k]; [|apply IH].
  cbn [xml_escapeText].
  destruct (utf8_DecodeRune (String c t)) as [r w] eqn:Hdec.
  destruct (escape_rune_spec c t r w Hdec) as (_ & Hlt & Hq & _).
  destruct (IH (w - 1)%nat) as [IHlt IHq].
  now rewrite !has_char_app, Hlt, Hq, IHlt, IHq.
Qed.

(** The reader undoes the escaping of a string that needs no
    replacement. *)
Lemma unescape_escapeText (s : string) : forall skip,
  xml_valid skip s = true ->
  xml_unescape None (xml_escapeText skip s) = Some (string_drop skip s).
Proof.
  induction s as [|c t IH]; intros skip Hvalid.
  - now destruct skip.
  - destruct skip as [|k]; [|now apply IH].
    cbn [xml_escapeText xml_valid string_drop] in *.
    destruct (utf8_DecodeRune (String c t)) as [r w] eqn:Hdec.
    apply andb_prop in Hvalid. destruct Hvalid as [Hrep Hrest].
    apply negb_true_iff in Hrep.
    destruct (escape_rune_spec c t r w Hdec) as (Hw & _ & _ & Hback).
    rewrite (Hback Hrep), (IH _ Hrest). cbn [option_map]. f_equal.
    destruct w as [|w]; [lia|].
    replace (S w - 1)%nat with w by lia.
    cbn [string_take append]. f_equal.
    apply string_take_drop.
Qed.

Lemma span_until_app (stop : ascii) (a rest : string) :
  has_char stop a = false ->
  span_until stop (a ++ String stop rest) = (a, String stop rest).
Proof.
  induction a as [|c a IH]; simpl; intros H.
  - now rewrite Ascii.eqb_refl.
  - apply orb_false_elim in H. destruct H as [Hc Ha].
    now rewrite Hc, (IH Ha).
Qed.

Lemma strip_prefix_app (p s : string) : strip_prefix p (p ++ s) = Some s.
Proof.
  induction p as [|c p IH]; simpl; [reflexivity|].
  now rewrite Ascii.eqb_refl.
Qed.

Lemma append_assoc (a b c : string) : ((a ++ b) ++ c = a ++ (b ++ c))%string.
Proof. induction a as [|x a IH]; simpl; [reflexivity | now rewrite IH]. Qed.

(** Escaped text that ends at [stop] is read back. *)
Lemma read_text_escaped (stop : ascii) (text rest : string) :
  stop = "<"%char \/ stop = ch_quote ->
  xml_valid 0 text = true ->
  read_text stop (xml_EscapeString text ++ String stop rest)
  = Some (text, String stop rest).
Proof.
  intros Hstop Hvalid. unfold read_text, xml_EscapeString.
  destruct (escapeText_no_lt_quote text 0) as [Hlt Hq].
  rewrite span_until_app by (destruct Hstop; subst; assumption).
  now rewrite (unescape_escapeText text 0 Hvalid).
Qed.

Lemma read_element_marshalled (name text rest : string) :
  xml_valid 0 text = true ->
  read_element name (xml_element name text ++ rest) = Some (text, rest).
Proof.
  intros Hvalid. unfold read_element, xml_element.
  rewrite !append_assoc, strip_prefix_app.
  change (xml_end name ++ rest)%string
    with (String "<" (String "/" (name ++ ">") ++ rest))%string.
  rewrite read_text_escaped by (auto).
  change (String "<" (String "/" (name ++ ">") ++ rest))%string
    with (xml_end name ++ rest)%string.
  now rewrite strip_prefix_app.
Qed.

(** An [omitempty] element is read back when what follows it does not
    open an element of the same name. *)
Lemma read_optional_marshalled (name text rest : string) :
  xml_valid 0 text = true ->
  strip_prefix (xml_start name) rest = None ->
  read_optional name (xml_omitempty name text ++ rest) = Some (text, rest).
Proof.
  intros Hvalid Hrest. unfold read_optional, xml_omitempty.
  destruct (String.eqb_spec text "") as [->|Hne].
  - cbn [append]. now rewrite Hrest.
  - rewrite read_element_marshalled by assumption.
    unfold xml_element. rewrite !append_assoc, strip_prefix_app. reflexivity.
Qed.

Lemma omitempty_not_start (name name' text rest : string) :
  (forall tail, strip_prefix (xml_start name) (xml_start name' ++ tail) = None) ->
  strip_prefix (xml_start name) rest = None ->
  strip_prefix (xml_start name) (xml_omitempty name' text ++ rest) = None.
Proof.
  intros Hopen Hrest. unfold xml_omitempty.
  destruct (text =? ""); [exact Hrest|].
  unfold xml_element. rewrite !append_assoc. apply Hopen.
Qed.

Lemma read_item_marshalled (e : item) (rest : string) :
  item_valid e = true ->
  read_item (marshal_item e ++ rest) = Some (e, rest).
Proof.
  destruct e as [t l d p c]. unfold item_valid, marshal_item, read_item.
  cbn [item_Title item_Link item_Description item_PubDate item_Category].
  intros H. repeat (apply andb_prop in H; destruct H as [H ?]).
  rewrite !append_assoc, strip_prefix_app.
  rewrite !read_element_marshalled by assumption.
  rewrite read_optional_marshalled;
    [| assumption | apply omitempty_not_start; [intros tail|]; reflexivity ].
  rewrite read_optional_marshalled; [| assumption | reflexivity ].
  now rewrite strip_prefix_app.
Qed.

Lemma length_append (a b : string) :
  String.length (a ++ b) = (String.length a + String.length b)%nat.
Proof. induction a as [|c a IH]; simpl; [reflexivity | now rewrite IH]. Qed.

Lemma marshal_items_length (items : list item) (rest : string) :
  (List.length items <= String.length (marshal_items items ++ rest))%nat.
Proof.
  induction items as [|e es IH]; [cbn; lia|].
  cbn [marshal_items List.length]. rewrite append_assoc, length_append.
  assert (1 <= String.length (marshal_item e))%nat
    by (unfold marshal_item; cbn [xml_start append String.length]; lia).
  lia.
Qed.

Lemma read_items_marshalled (items : list item) (rest : string) :
  forall fuel,
    (List.length items <= fuel)%nat ->
    forallb item_valid items = true ->
    strip_prefix (xml_start "item") rest = None ->
    read_items fuel (marshal_items items ++ rest) = Some (items, rest).
Proof.
  induction items as [|e es IH]; intros fuel Hfuel Hvalid Hrest.
  - destruct fuel; cbn [marshal_items append read_items]; now rewrite Hrest.
  - cbn [forallb] in Hvalid. apply andb_prop in Hvalid. destruct Hvalid as [He Hes].
    destruct fuel as [|fuel]; [cbn in Hfuel; lia|].
    cbn [marshal_items read_items]. rewrite append_assoc.
    replace (strip_prefix (xml_start "item") (marshal_item e ++ marshal_items es ++ rest))
      with (Some (xml_element "title" (item_Title e)
                  ++ xml_element "link" (item_Link e)
                  ++ xml_element "description" (item_Description e)
                  ++ xml_omitempty "pubDate" (item_PubDate e)
                  ++ xml_omitempty "category" (item_Category e)
                  ++ xml_end "item" ++ marshal_items es ++ rest)%string)
      by (unfold marshal_item; now rewrite !append_assoc, strip_prefix_app).
    rewrite read_item_marshalled by assumption.
    rewrite IH; [reflexivity | cbn in Hfuel; lia | assumption | assumption].
Qed.

Lemma read_channel_marshalled (c : channel) (rest : string) :
  channel_valid c = true ->
  read_channel (marshal_channel c ++ rest) = Some (c, rest).
Proof.
  destruct c as [t l d items]. unfold channel_valid, marshal_channel, read_channel.
  cbn [channel_Title channel_Link channel_Description channel_Items].
  intros H. repeat (apply andb_prop in H; destruct H as [H ?]).
  rewrite !append_assoc, strip_prefix_app.
  rewrite !read_element_marshalled by assumption.
  rewrite read_items_marshalled;
    [| apply marshal_items_length | assumption | reflexivity ].
  now rewrite strip_prefix_app.
Qed.

(** C7, amended.  A feed document whose strings are valid UTF-8 made
    of characters that XML 1.0 allows, so that the marshaller puts
    U+FFFD for none of them, is read back from its serialized bytes as
    it was: every entry with the same title, link, description,
    category and date. *)
Theorem parse_feed_Marshal (v : rss) :
  rss_valid v = true -> parse_feed (xml_Marshal v) = Some v.
Proof.
  destruct v as [version ch]. unfold rss_valid, xml_Marshal, parse_feed.
  cbn [rss_Version rss_Channel].
  intros H. apply andb_prop in H. destruct H as [Hv Hc].
  rewrite <- (append_assoc "<rss version=" dquote), strip_prefix_app.
  change (dquote ++ ">" ++ match ch with Some c => marshal_channel c | None => "" end
          ++ xml_end "rss")%string
    with (String ch_quote (">" ++ match ch with Some c => marshal_channel c | None => "" end
          ++ xml_end "rss"))%string.
  rewrite read_text_escaped by auto.
  change (strip_prefix (dquote ++ ">")
            (String ch_quote (">" ++ match ch with Some c => marshal_channel c | None => "" end
                              ++ xml_end "rss")))
    with (Some (match ch with Some c => marshal_channel c | None => "" end
                ++ xml_end "rss")%string).
  destruct ch as [c|].
  - replace (strip_prefix (xml_start "channel") (marshal_channel c ++ xml_end "rss"))
      with (Some (xml_element "title" (channel_Title c)
                  ++ xml_element "link" (channel_Link c)
                  ++ xml_element "description" (channel_Description c)
                  ++ marshal_items (channel_Items c)
                  ++ xml_end "channel" ++ xml_end "rss")%string)
      by (unfold marshal_channel; now rewrite !append_assoc, strip_prefix_app).
    rewrite read_channel_marshalled by assumption.
    reflexivity.
  - reflexivity.
Qed.

(** The scenario's feed is read back from its serialized bytes. *)
Lemma parse_feed_Marshal_witness :
  rss_valid scenario_feed = true
  /\ parse_feed (xml_Marshal scenario_feed) = Some scenario_feed.
Proof.
  assert (H : rss_valid scenario_feed = true) by (vm_compute; reflexivity).
  split; [exact H | exact (parse_feed_Marshal scenario_feed H)].
Defined.

(** C7, as stated, fails.  A title that is the control character
    U+0001 is serialized as U+FFFD, to the same bytes as the feed whose
    title is U+FFFD: reading the bytes back yields the second feed,
    and no reader can tell the two apart. *)
Lemma Marshal_replaces_control :
  xml_Marshal feed_control = xml_Marshal feed_replacement
  /\ parse_feed (xml_Marshal feed_control) = Some feed_replacement
  /\ feed_entries feed_control <> feed_entries feed_replacement.
Proof.
  split; [vm_compute; reflexivity|].
  split; [vm_compute; reflexivity|].
  vm_compute. discriminate.
Qed.

(* ================================================================== *)
(** ** More on the record mapper *)

Lemma get_app (fields extra : list string) (i : nat) :
  (i < List.length fields)%nat -> get (fields ++ extra) i = get fields i.
Proof.
  intros Hi. unfold get, len. rewrite length_app.
  destruct (Z.ltb_spec (Z.of_nat i) (Z.of_nat (List.length fields + List.length extra)));
    [|lia].
  destruct (Z.ltb_spec (Z.of_nat i) (Z.of_nat (List.length fields))); [|lia].
  now apply app_nth1.
Qed.

Section MapperMore.
Context {TP : TimePkg}.

(** One iteration reads the row at index [i] only. *)
Lemma body_get fields fields' st i h :
  get fields i = get fields' i ->
  fromRecord_body fields st i h = fromRecord_body fields' st i h.
Proof. intros H. unfold fromRecord_body. now rewrite H. Qed.

Lemma range_app headers : forall i fields extra st,
  (i + List.length headers <= List.length fields)%nat ->
  fromRecord_range i headers (fields ++ extra) st
  = fromRecord_range i headers fields st.
Proof.
  induction headers as [|h hs IH]; intros i fields extra st Hlen; simpl.
  - reflexivity.
  - simpl in Hlen. rewrite (body_get (fields ++ extra) fields).
    + apply IH. lia.
    + apply get_app. lia.
Qed.

(** X1.  Fields of the data row beyond the header row are ignored: a
    row at least as long as the header is mapped as its first fields
    are, whatever follows them. *)
Theorem fromRecord_ignores_extra_fields
        (e : item) (headers fields extra : list string) (tick : nat) :
  (List.length headers <= List.length fields)%nat ->
  fromRecord e headers (fields ++ extra) tick = fromRecord e headers fields tick.
Proof.
  intros Hlen. unfold fromRecord. now rewrite range_app by (simpl; lia).
Qed.

(** A field is left as it is by the columns of other names. *)
Lemma range_absent (column : string) (field : item -> string) headers :
  (forall fields st i h,
      field (ms_item (fromRecord_body fields st i h))
      = if h =? column then get fields i else field (ms_item st)) ->
  forall i fields st,
    ~ In column headers ->
    field (ms_item (fromRecord_range i headers fields st)) = field (ms_item st).
Proof.
  intros Hbody.
  induction headers as [|h hs IH]; intros i fields st Hno; simpl.
  - reflexivity.
  - rewrite IH by (intros Hin; apply Hno; now right).
    rewrite Hbody. destruct (String.eqb_spec h column) as [->|_]; [|reflexivity].
    exfalso. apply Hno. now left.
Qed.

Lemma not_later_not_in (column : string) (h : string) (hs : list string) :
  (forall j, (0 < j)%nat -> nth_error (h :: hs) j <> Some column) ->
  ~ In column hs.
Proof.
  intros Hlast Hin. apply In_nth_error in Hin. destruct Hin as [n Hn].
  apply (Hlast (S n)); [lia | exact Hn].
Qed.

(** The last column of a name decides the field it sets. *)
Lemma range_last (column : string) (field : item -> string) headers :
  (forall fields st i h,
      field (ms_item (fromRecord_body fields st i h))
      = if h =? column then get fields i else field (ms_item st)) ->
  forall k i fields st,
    nth_error headers k = Some column ->
    (forall j, (k < j)%nat -> nth_error headers j <> Some column) ->
    field (ms_item (fromRecord_range i headers fields st)) = get fields (i + k).
Proof.
  intros Hbody.
  induction headers as [|h hs IH]; intros k i fields st Hk Hlast.
  - destruct k; discriminate.
  - destruct k as [|k]; simpl in Hk; cbn [fromRecord_range].
    + injection Hk as ->.
      rewrite (range_absent column field hs Hbody)
        by (eapply not_later_not_in; exact Hlast).
      rewrite Hbody, String.eqb_refl, Nat.add_0_r. reflexivity.
    + replace (i + S k)%nat with (S i + k)%nat by lia.
      apply IH; [exact Hk|].
      intros j Hj. apply (Hlast (S j)). lia.
Qed.

(** The date of the last date column, parsed at some reading of the
    clock. *)
Lemma range_last_date headers : forall k i fields st,
  nth_error headers k = Some "date" ->
  (forall j, (k < j)%nat -> nth_error headers j <> Some "date") ->
  exists t,
    item_PubDate (ms_item (fromRecord_range i headers fields st))
    = Time_Format (fst (parseDate (get fields (i + k)) t)) time.RFC1123Z.
Proof.
  induction headers as [|h hs IH]; intros k i fields st Hk Hlast.
  - destruct k; discriminate.
  - destruct k as [|k]; simpl in Hk; cbn [fromRecord_range].
    + injection Hk as ->. exists (ms_tick st).
      rewrite range_PubDate_absent
        by (eapply not_later_not_in; exact Hlast).
      rewrite body_PubDate, Nat.add_0_r. reflexivity.
    + replace (i + S k)%nat with (S i + k)%nat by lia.
      apply IH; [exact Hk|].
      intros j Hj. apply (Hlast (S j)). lia.
Qed.

(** X2.  When a column name occurs more than once in the header, its
    last occurrence decides the field: title, link, description and
    date are read at the index of the last column of their name. *)
Theorem fromRecord_last_column_wins
        (e : item) (headers fields : list string) (tick : nat) (k : nat) :
  (forall j, (k < j)%nat -> nth_error headers j <> nth_error headers k) ->
  let e' := fst (fromRecord e headers fields tick) in
  (nth_error headers k = Some "description" -> item_Title e' = get fields k)
  /\ (nth_error headers k = Some "article" -> item_Link e' = get fields k)
  /\ (nth_error headers k = Some "detail" -> item_Description e' = get fields k)
  /\ (nth_error headers k = Some "date" ->
      exists t, item_PubDate e'
                = Time_Format (fst (parseDate (get fields k) t)) time.RFC1123Z).
Proof.
  intros Hlast e'. subst e'. unfold fromRecord.
  cbn [fst item_Title item_Link item_Description item_PubDate].
  repeat split; intros Hk; rewrite Hk in Hlast.
  - now apply (range_last "description" item_Title headers body_Title k 0).
  - now apply (range_last "article" item_Link headers body_Link k 0).
  - now apply (range_last "detail" item_Description headers body_Description k 0).
  - now apply (range_last_date headers k 0).
Qed.

(** X3.  The date of a row, when the value of the last date column
    parses, is the parse under the first matching layout, in UTC,
    formatted as RFC 1123 with a numeric zone; the clock plays no
    part. *)
Theorem fromRecord_date_reformatted
        (e : item) (headers fields : list string) (tick : nat)
        (k i : nat) (x : string) (p : Time) :
  nth_error headers k = Some "date" ->
  (forall j, (k < j)%nat -> nth_error headers j <> Some "date") ->
  nth_error parseDate_layouts i = Some x ->
  time_Parse x (get fields k) = Some p ->
  (forall j y, (j < i)%nat -> nth_error parseDate_layouts j = Some y ->
               time_Parse y (get fields k) = None) ->
  item_PubDate (fst (fromRecord e headers fields tick))
  = Time_Format (Time_UTC p) time.RFC1123Z.
Proof.
  intros Hk Hlast Hi Hp Hfirst. unfold fromRecord. cbn [fst item_PubDate].
  destruct (range_last_date headers k 0 fields (mkMapper e [] tick) Hk Hlast)
    as [t Ht].
  rewrite Ht. cbn [Nat.add]. unfold parseDate.
  now rewrite (parseDate_range_first _ _ i x p Hi Hp Hfirst).
Qed.

(** X4.  On a receiver that is not fresh, title, link, description
    and date keep their value when the header has no column for them;
    the category is assigned in any case, and is empty without an
    activity or branch column. *)
Theorem fromRecord_keeps_unset_fields
        (e : item) (headers fields : list string) (tick : nat) :
  let e' := fst (fromRecord e headers fields tick) in
  (~ In "description" headers -> item_Title e' = item_Title e)
  /\ (~ In "article" headers -> item_Link e' = item_Link e)
  /\ (~ In "detail" headers -> item_Description e' = item_Description e)
  /\ (~ In "date" headers -> item_PubDate e' = item_PubDate e)
  /\ item_Category e' = strings_Join (category_values 0 headers fields) ","
  /\ (~ In "activity" headers -> ~ In "branch" headers -> item_Category e' = "").
Proof.
  intros e'. subst e'. unfold fromRecord.
  cbn [fst item_Title item_Link item_Description item_PubDate item_Category].
  repeat split.
  - intros H. now rewrite (range_absent "description" item_Title headers body_Title).
  - intros H. now rewrite (range_absent "article" item_Link headers body_Link).
  - intros H.
    now rewrite (range_absent "detail" item_Description headers body_Description).
  - intros H. now rewrite range_PubDate_absent.
  - now rewrite range_cats.
  - intros Ha Hb. rewrite range_cats. cbn [ms_cats app].
    replace (category_values 0 headers fields) with (@nil string); [reflexivity|].
    generalize 0%nat. induction headers as [|h hs IH]; intros n; [reflexivity|].
    cbn [category_values].
    destruct (String.eqb_spec h "activity") as [->|_];
      [exfalso; apply Ha; now left|].
    destruct (String.eqb_spec h "branch") as [->|_];
      [exfalso; apply Hb; now left|].
    cbn [orb]. apply IH.
    + intros H. apply Ha. now right.
    + intros H. apply Hb. now right.
Qed.

(** X15.  Under the header of the source data contract, date,
    description, article, activity, branch, detail, a row of six
    fields is mapped to the entry whose title is the second field,
    whose link is the third, whose description is the sixth, whose
    category is the fourth and fifth joined by a comma, and whose date
    is the first, parsed and formatted. *)
Theorem fromRecord_standard_header (d t l a b x : string) (tick : nat) :
  fromRecord new_item
             ["date"; "description"; "article"; "activity"; "branch"; "detail"]
             [d; t; l; a; b; x] tick
  = (mkItem t l x (Time_Format (fst (parseDate d tick)) time.RFC1123Z)
            (a ++ "," ++ b)%string,
     snd (parseDate d tick)).
Proof.
  (* the six iterations of the loop, and the join, by evaluation *)
  lazy. reflexivity.
Qed.

Lemma body_tick fields st i h :
  ms_tick (fromRecord_body fields st i h)
  = if h =? "date" then snd (parseDate (get fields i) (ms_tick st))
    else ms_tick st.
Proof. switch_header h; reflexivity. Qed.

Lemma parseDate_tick (s : string) (tick : nat) :
  (tick <= snd (parseDate s tick) <= S tick)%nat.
Proof.
  unfold parseDate. destruct (parseDate_range parseDate_layouts s); simpl; lia.
Qed.

Lemma range_tick headers : forall i fields st,
  (ms_tick st <= ms_tick (fromRecord_range i headers fields st)
   <= ms_tick st + List.length (filter (String.eqb "date") headers))%nat.
Proof.
  induction headers as [|h hs IH]; intros i fields st;
    cbn [fromRecord_range filter].
  - cbn [List.length]. lia.
  - specialize (IH (S i) fields (fromRecord_body fields st i h)).
    rewrite body_tick in IH. rewrite (String.eqb_sym "date" h).
    destruct (h =? "date").
    + pose proof (parseDate_tick (get fields i) (ms_tick st)).
      cbn [List.length]. lia.
    + lia.
Qed.

Lemma filter_date_nil (headers : list string) :
  ~ In "date" headers -> filter (String.eqb "date") headers = [].
Proof.
  induction headers as [|h hs IH]; intros Hno; [reflexivity|]. cbn [filter].
  destruct (String.eqb_spec "date" h) as [<-|_].
  - exfalso. apply Hno. now left.
  - apply IH. intros Hin. apply Hno. now right.
Qed.

(** X5.  [fromRecord] reads the clock at most once per date column of
    the header, and not at all when the header has none. *)
Theorem fromRecord_clock_reads
        (e : item) (headers fields : list string) (tick : nat) :
  (tick <= snd (fromRecord e headers fields tick)
   <= tick + List.length (filter (String.eqb "date") headers))%nat
  /\ (~ In "date" headers -> snd (fromRecord e headers fields tick) = tick).
Proof.
  unfold fromRecord. cbn [snd].
  pose proof (range_tick headers 0 fields (mkMapper e [] tick)) as H.
  cbn [ms_tick] in H. split; [exact H|].
  intros Hno. rewrite (filter_date_nil headers Hno) in H.
  cbn [List.length] in H. lia.
Qed.

End MapperMore.

(* ================================================================== *)
(** ** More on the CSV reader and the feed builder *)

Lemma csv_normalize_length (s : string) :
  (String.length (csv_normalize s) <= String.length s)%nat.
Proof.
  induction s as [|c t IH]; [simpl; lia|].
  cbn [csv_normalize]. destruct (c =? ch_cr)%char.
  - destruct t as [|c' t']; [simpl; lia|].
    destruct (c' =? ch_nl)%char; cbn [String.length] in *; lia.
  - cbn [String.length]. lia.
Qed.

(** The field parser delivers at most one record per byte, and one
    more for a last line that does not end. *)
Lemma csv_scan_count (s : string) : forall m fields buf,
  (List.length (fst (csv_scan m fields buf s)) <= S (String.length s))%nat.
Proof.
  induction s as [|c t IH]; intros m fields buf.
  - destruct m; simpl; lia.
  - cbn [csv_scan String.length]. destruct (csv_step m c).
    + specialize (IH RecordStart [] ""). lia.
    + specialize (IH Quoted fields buf). lia.
    + specialize (IH QuoteSeen fields buf). lia.
    + specialize (IH (csv_inside m) fields (snoc_char buf c)). lia.
    + specialize (IH m0 (fields ++ [buf]) ""). lia.
    + specialize (IH RecordStart [] "").
      destruct (csv_scan RecordStart [] "" t) as [more e].
      cbn [fst List.length] in *. lia.
    + simpl. lia.
Qed.

(** [ReadAll] returns no more records than the input has bytes, plus
    one. *)
Lemma csv_ReadAll_count (r : string) (records : list (list string)) :
  csv_ReadAll r = (records, None) ->
  (List.length records <= S (String.length r))%nat.
Proof.
  unfold csv_ReadAll, csv_ReadAll_with.
  pose proof (csv_scan_count (csv_normalize r) RecordStart [] "") as Hcount.
  pose proof (csv_normalize_length r) as Hnorm.
  destruct (csv_scan RecordStart [] "" (csv_normalize r)) as [parsed final] eqn:E.
  rewrite ReadAll_loop_default by (eapply csv_scan_nonempty; eassumption).
  destruct (forallb _ parsed); [|discriminate].
  destruct final; [discriminate|]. injection 1 as <-.
  cbn [fst] in Hcount. lia.
Qed.

Section BuilderMore.
Context {TP : TimePkg}.

(** X6.  For a maximum that is not negative and an input of two rows
    or more, [fromCSV] builds a feed of version 2.0 with the fixed
    title, link and description and at most
    [min(maxRecords, rowCount - 1)] items; the items are mapped, with
    the header row, from the last row upwards, one row each and never
    the header row. *)
Theorem fromCSV_newest_first (r : string) (records : list (list string))
        (maxRecords : Z) (rs : rss) (tick : nat) :
  csv_ReadAll r = (records, None) ->
  (2 <= len records < 2 ^ 63)%Z ->
  (0 <= maxRecords < 2 ^ 63)%Z ->
  exists items tick',
    fromCSV rs r maxRecords tick
    = Returned None (mkRss "2.0" (Some (mkChannel Title URL Desc items))) tick'
    /\ (Z.of_nat (List.length items) <= Z.min maxRecords (len records - 1))%Z
    /\ forall k, (k < List.length items)%nat ->
         (1 <= List.length records - 1 - k)%nat
         /\ exists t, nth k items new_item
                      = fst (fromRecord new_item (nth 0 records [])
                               (nth (List.length records - 1 - k) records []) t).
Proof.
  intros Hread Hlen Hmax. unfold fromCSV. rewrite Hread.
  destruct (Z.leb_spec (len records) 1); [lia|].
  rewrite (wrap64_small (len records - maxRecords)%Z) by lia.
  set (start := if (len records - maxRecords <=? 0)%Z then 1%Z
                else (len records - maxRecords)%Z).
  assert (Hstart : (1 <= start <= len records)%Z
                   /\ (len records - 1 - start < Z.min maxRecords (len records - 1))%Z).
  { unfold start. destruct (Z.leb_spec (len records - maxRecords) 0); lia. }
  rewrite (wrap64_small (len records - start)%Z) by lia.
  destruct (Z.ltb_spec (len records - start) 0); [lia|].
  destruct (fromCSV_loop_items start (nth 0 records []) records
              (List.length records - 1) [] tick) as (new & Hout & Hcount & Hnth);
    [lia|].
  destruct (fromCSV_loop (List.length records - 1) start (nth 0 records [])
              records [] tick) as [out tick'].
  cbn [fst app] in Hout. subst out.
  exists new, tick'. repeat split.
  - rewrite Hcount. unfold len in *. lia.
  - rewrite Hcount in H1. unfold len in *. lia.
  - now apply Hnth.
Qed.

(** X7.  When [fromCSV] returns an error it has not touched the feed
    nor read the clock, and the error is the reader's, or "no records"
    for a reader that delivered at most one row. *)
Theorem fromCSV_error_keeps_feed (rs : rss) (r : string) (maxRecords : Z)
        (tick : nat) (e : error) (rs' : rss) (tick' : nat) :
  fromCSV rs r maxRecords tick = Returned (Some e) rs' tick' ->
  rs' = rs /\ tick' = tick
  /\ ((exists ce, e = csv_ParseError ce /\ snd (csv_ReadAll r) = Some ce)
      \/ (e = errors_New "no records"
          /\ snd (csv_ReadAll r) = None
          /\ (List.length (fst (csv_ReadAll r)) <= 1)%nat)).
Proof.
  unfold fromCSV. destruct (csv_ReadAll r) as [records [ce|]].
  - injection 1 as <- <- <-. repeat split. left. now exists ce.
  - destruct (Z.leb_spec (len records) 1) as [Hle|Hgt].
    + injection 1 as <- <- <-. repeat split. right. repeat split.
      cbn [fst]. unfold len in Hle. lia.
    + destruct (_ <? 0)%Z; [discriminate|].
      destruct (fromCSV_loop _ _ _ _ _ _). discriminate.
Qed.

(** X8.  On an input of two rows or more, a negative maximum makes
    [fromCSV] panic when it allocates the slice of items, the capacity
    being negative. *)
Theorem fromCSV_negative_max_panics (r : string) (records : list (list string))
        (maxRecords : Z) (rs : rss) (tick : nat) :
  csv_ReadAll r = (records, None) ->
  (2 <= len records)%Z ->
  (maxRecords < 0)%Z ->
  (len records - maxRecords < 2 ^ 63)%Z ->
  fromCSV rs r maxRecords tick = Panicked "makeslice: cap out of range".
Proof.
  intros Hread Hlen Hneg Hfit. unfold fromCSV. rewrite Hread.
  destruct (Z.leb_spec (len records) 1); [lia|].
  rewrite (wrap64_small (len records - maxRecords)%Z) by lia.
  destruct (Z.leb_spec (len records - maxRecords) 0); [lia|].
  rewrite (wrap64_small (len records - (len records - maxRecords))%Z) by lia.
  destruct (Z.ltb_spec (len records - (len records - maxRecords)) 0); [reflexivity|lia].
Qed.

End BuilderMore.

(* ================================================================== *)
(** ** More on the publisher, the handler and the process *)

(** X9.  On any state of the handler, a request is answered with 200
    exactly when it is a GET, the flag is set and the cache is not
    empty; the flag set over an empty cache gives 404; the body is the
    XML declaration and the cache under 200, and empty otherwise. *)
Theorem ServeHTTP_any_state (s : sheet2rss) (method : string) :
  let w := ServeHTTP s new_response method in
  (sent_status w = StatusOK
   <-> method = MethodGet /\ ready s = true /\ cached s <> "")
  /\ (method = MethodGet -> ready s = true -> cached s = "" ->
      sent_status w = StatusNotFound)
  /\ (sent_status w = StatusOK -> body w = (xml_declaration ++ cached s)%string)
  /\ (sent_status w <> StatusOK -> body w = "").
Proof.
  intros w. subst w. unfold ServeHTTP.
  destruct (String.eqb_spec method MethodGet) as [->|Hne]; cbn [negb].
  - destruct (ready s) eqn:Hr; [destruct (cached s) as [|c t] eqn:Hc|];
      cbn; intuition (discriminate || congruence).
  - cbn. intuition (discriminate || congruence).
Qed.

Section PublisherMore.
Context {TP : TimePkg} {HP : HashPkg}.

Lemma apply_store_url (s : sheet2rss) (w : store) : url (apply_store s w) = url s.
Proof. now destruct w. Qed.

Lemma reachable_url (key : string) (p : process) :
  reachable key p -> url (handler p) = url (handler (main key)).
Proof.
  induction 1 as [|p p' _ IH Hstep]; [reflexivity|].
  destruct Hstep; cbn [handler] in *; try assumption.
  now rewrite apply_store_url.
Qed.

(** X10.  No step of the process changes the URL [main] built, and
    once the flag is set no step changes the handler: the cache is
    written once. *)
Theorem published_is_stable (key : string) (p p' : process) :
  reachable key p -> step p p' ->
  url (handler p') = url (handler (main key))
  /\ (ready (handler p) = true -> handler p' = handler p).
Proof.
  intros Hreach Hstep. split.
  - apply reachable_url. now apply (reach_step key p p').
  - intros Hready. pose proof (reachable_inv key p Hreach) as Hinv.
    destruct Hstep as [| | s tick w todo | |]; cbn [handler refresher] in *;
      try reflexivity.
    unfold process_inv in Hinv. cbn [handler refresher] in Hinv.
    destruct Hinv
      as (content & _ & [(_ & Hr)|[(_ & Hr & _)|[(_ & Hr & _)|(Ht & _)]]]);
      congruence.
Qed.

(** X11.  In every state the process can be in, between the
    assignments of [refresh] too, a set flag means that the cache is
    not empty and that the digest is the digest of the cache. *)
Theorem ready_cache_digest (key : string) (p : process) :
  reachable key p -> ready (handler p) = true ->
  (0 < String.length (cached (handler p)))%nat
  /\ digest (handler p) = fmt_Sprintf_space_x (sha1_Sum (cached (handler p))).
Proof.
  intros Hreach Hready.
  destruct (ready_cached key p Hreach Hready) as [Hm Hd].
  split; [now apply marshalled_not_empty | exact Hd].
Qed.

(** With 20 for the maximum, [fromCSV] does not panic on an input that
    fits in memory. *)
Lemma fromCSV_NumEntries (r : string) (records : list (list string))
      (rs : rss) (tick : nat) :
  csv_ReadAll r = (records, None) ->
  (2 <= len records < 2 ^ 63)%Z ->
  exists items tick',
    fromCSV rs r NumEntries tick
    = Returned None (mkRss "2.0" (Some (mkChannel Title URL Desc items))) tick'
    /\ (Z.of_nat (List.length items) <= NumEntries)%Z.
Proof.
  intros Hread Hlen.
  destruct (fromCSV_entries r records NumEntries rs tick Hread Hlen)
    as (items & tick' & Heq & Hcount & _); [unfold NumEntries; lia|].
  exists items, tick'. split; [exact Heq | lia].
Qed.

(** Fewer than two rows are refused. *)
Lemma fromCSV_few_rows (r : string) (records : list (list string))
      (rs : rss) (maxRecords : Z) (tick : nat) :
  csv_ReadAll r = (records, None) ->
  (List.length records <= 1)%nat ->
  fromCSV rs r maxRecords tick
  = Returned (Some (errors_New "no records")) rs tick.
Proof.
  intros Hread Hle. unfold fromCSV. rewrite Hread.
  destruct (Z.leb_spec (len records) 1); [reflexivity|].
  unfold len in *. lia.
Qed.

(** X12.  [refresh] ends the process exactly when the fetch failed,
    the reader refused the body, or the body has fewer than two rows. *)
Theorem refresh_fatal_iff (s : sheet2rss) (got : fetched) (tick : nat) :
  (forall r, got = FetchBody r -> (Z.of_nat (String.length r) < 2 ^ 63 - 1)%Z) ->
  (refresh s got tick = None
   <-> got = FetchError
       \/ exists r, got = FetchBody r
                    /\ (snd (csv_ReadAll r) <> None
                        \/ (List.length (fst (csv_ReadAll r)) <= 1)%nat)).
Proof.
  intros Hfit. unfold refresh, refresh_content.
  destruct got as [|r]; [split; auto|].
  specialize (Hfit r eq_refl).
  destruct (csv_ReadAll r) as [records [ce|]] eqn:Hread.
  - unfold fromCSV. rewrite Hread. split; [|reflexivity].
    intros _. right. exists r. split; [reflexivity|]. left. rewrite Hread.
    discriminate.
  - destruct (Nat.le_gt_cases (List.length records) 1) as [Hle|Hgt].
    + rewrite (fromCSV_few_rows r records _ _ _ Hread Hle). split; [|reflexivity].
      intros _. right. exists r. split; [reflexivity|]. right.
      now rewrite Hread.
    + pose proof (csv_ReadAll_count r records Hread) as Hcount.
      destruct (fromCSV_NumEntries r records new_rss tick Hread)
        as (items & tick' & Heq & _); [unfold len; lia|].
      rewrite Heq. split; [discriminate|].
      intros [H|(r' & Hr' & [H|H])]; [discriminate| |].
      * injection Hr' as <-. rewrite Hread in H. now contradiction H.
      * injection Hr' as <-. rewrite Hread in H. cbn [fst] in H. lia.
Qed.

(** X13.  A [refresh] that returns has stored the marshalled feed that
    [fromCSV] built from the body with 20 for the maximum, a feed of at
    most 20 items, has set the flag and has kept the URL. *)
Theorem refresh_publishes (s : sheet2rss) (r : string) (tick : nat)
        (s' : sheet2rss) (tick' : nat) :
  (Z.of_nat (String.length r) < 2 ^ 63 - 1)%Z ->
  refresh s (FetchBody r) tick = Some (s', tick') ->
  exists items,
    fromCSV new_rss r NumEntries tick
    = Returned None (mkRss "2.0" (Some (mkChannel Title URL Desc items))) tick'
    /\ (Z.of_nat (List.length items) <= NumEntries)%Z
    /\ cached s' = xml_Marshal (mkRss "2.0" (Some (mkChannel Title URL Desc items)))
    /\ ready s' = true
    /\ url s' = url s.
Proof.
  intros Hfit. unfold refresh, refresh_content.
  destruct (csv_ReadAll r) as [records [ce|]] eqn:Hread.
  - unfold fromCSV. rewrite Hread. discriminate.
  - destruct (Nat.le_gt_cases (List.length records) 1) as [Hle|Hgt].
    + rewrite (fromCSV_few_rows r records _ _ _ Hread Hle). discriminate.
    + pose proof (csv_ReadAll_count r records Hread) as Hcount.
      destruct (fromCSV_NumEntries r records new_rss tick Hread)
        as (items & t & Heq & Hle); [unfold len; lia|].
      rewrite Heq. injection 1 as <- <-. exists items. now repeat split.
Qed.

Lemma fromCSV_success_shape (rs : rss) (r : string) (maxRecords : Z)
      (tick : nat) (feed : rss) (tick' : nat) :
  fromCSV rs r maxRecords tick = Returned None feed tick' ->
  exists items, feed = mkRss "2.0" (Some (mkChannel Title URL Desc items)).
Proof.
  unfold fromCSV. destruct (csv_ReadAll r) as [records [ce|]]; [discriminate|].
  destruct (_ <=? 1)%Z; [discriminate|].
  destruct (_ <? 0)%Z; [discriminate|].
  destruct (fromCSV_loop _ _ _ _ _ _) as [out t].
  injection 1 as <- _. now exists out.
Qed.

(** X14.  In every state the process can be in, the body of a
    response is empty or is the XML declaration followed by the whole
    marshalled feed of some fetched spreadsheet. *)
Theorem ServeHTTP_serves_whole_feed (key : string) (p : process)
        (method : string) :
  reachable key p ->
  let w := ServeHTTP (handler p) new_response method in
  body w = ""
  \/ exists r tick items tick',
       fromCSV new_rss r NumEntries tick
       = Returned None (mkRss "2.0" (Some (mkChannel Title URL Desc items))) tick'
       /\ body w
          = (xml_declaration
             ++ xml_Marshal (mkRss "2.0" (Some (mkChannel Title URL Desc items))))%string.
Proof.
  intros Hreach w. subst w. unfold ServeHTTP.
  destruct (String.eqb_spec method MethodGet) as [->|Hne]; cbn [negb];
    [|now left].
  destruct (ready (handler p)) eqn:Hready; [|now left].
  destruct (ready_cached key p Hreach Hready) as [Hm _].
  pose proof (marshalled_not_empty _ Hm) as Hlen.
  destruct (Nat.ltb_spec 0 (String.length (cached (handler p)))); [|lia].
  right. destruct Hm as (got & tick & tick' & Hm).
  unfold refresh_content in Hm. destruct got as [|r]; [discriminate|].
  destruct (fromCSV new_rss r NumEntries tick) as [[e|] feed t|msg] eqn:Hcsv;
    try discriminate.
  injection Hm as Hm <-.
  destruct (fromCSV_success_shape _ _ _ _ _ _ Hcsv) as [items ->].
  exists r, tick, items, t. split; [exact Hcsv | now rewrite <- Hm].
Qed.

End PublisherMore.

(* ================================================================== *)
(** ** The further properties, on sample inputs *)

(** A row of three fields under a header of two. *)
Lemma fromRecord_ignores_extra_fields_witness :
  @fromRecord epoch_time new_item ["description"; "article"]
              (["t"; "l"] ++ ["more"]) 0
  = @fromRecord epoch_time new_item ["description"; "article"] ["t"; "l"] 0.
Proof.
  apply (@fromRecord_ignores_extra_fields epoch_time). simpl. lia.
Defined.

(** Two description columns: the second gives the title. *)
Lemma fromRecord_last_column_wins_witness :
  item_Title (fst (@fromRecord epoch_time new_item
                     ["description"; "article"; "description"]
                     ["first"; "l"; "second"] 0))
  = "second".
Proof.
  assert (Hlast : forall j, (2 < j)%nat ->
            nth_error ["description"; "article"; "description"] j
            <> nth_error ["description"; "article"; "description"] 2).
  { intros j Hj. do 3 (destruct j as [|j]; [lia|]).
    destruct j; simpl; discriminate. }
  exact (proj1 (@fromRecord_last_column_wins epoch_time new_item
                  ["description"; "article"; "description"]
                  ["first"; "l"; "second"] 0 2 Hlast) eq_refl).
Defined.

(** The date of the scenario's second row. *)
Lemma fromRecord_date_reformatted_witness :
  item_PubDate (fst (@fromRecord epoch_time new_item ["date"] ["1/5/2017"] 0))
  = "Thu, 05 Jan 2017 00:00:00 +0000".
Proof.
  apply (@fromRecord_date_reformatted epoch_time new_item ["date"] ["1/5/2017"]
           0 0 5 "1/2/2006" 1483574400%Z).
  - reflexivity.
  - intros j Hj. destruct j as [|j]; [lia|]. destruct j; simpl; discriminate.
  - reflexivity.
  - vm_compute. reflexivity.
  - intros j y Hj Hy.
    do 5 (destruct j as [|j]; [injection Hy as <-; vm_compute; reflexivity|]).
    lia.
Defined.

(** An entry with a title, mapped again under a header without a
    description column, keeps the title and loses its category. *)
Lemma fromRecord_keeps_unset_fields_witness :
  item_Title (fst (@fromRecord epoch_time (mkItem "old" "" "" "" "cat")
                     ["article"] ["l"] 0)) = "old"
  /\ item_Category (fst (@fromRecord epoch_time (mkItem "old" "" "" "" "cat")
                           ["article"] ["l"] 0)) = "".
Proof.
  destruct (@fromRecord_keeps_unset_fields epoch_time (mkItem "old" "" "" "" "cat")
              ["article"] ["l"] 0) as (Ht & _ & _ & _ & _ & Hc).
  split.
  - apply Ht. simpl. intros [H|[]]. discriminate H.
  - apply Hc; simpl; intros [H|[]]; discriminate H.
Defined.

(** Without a date column the clock is not read. *)
Lemma fromRecord_clock_reads_witness :
  snd (@fromRecord epoch_time new_item ["description"] ["t"] 3) = 3%nat.
Proof.
  apply (proj2 (@fromRecord_clock_reads epoch_time new_item
                  ["description"] ["t"] 3)).
  simpl. intros [H|[]]. discriminate H.
Defined.

(** The scenario's spreadsheet, with 20 for the maximum. *)
Lemma fromCSV_newest_first_witness :
  exists items tick',
    @fromCSV epoch_time new_rss scenario_csv 20 0
    = Returned None (mkRss "2.0" (Some (mkChannel Title URL Desc items))) tick'
    /\ (List.length items <= 2)%nat.
Proof.
  destruct (@fromCSV_newest_first epoch_time scenario_csv _ 20 new_rss 0
              csv_ReadAll_scenario)
    as (items & tick' & Heq & Hcount & _).
  - vm_compute. split; [discriminate | reflexivity].
  - vm_compute. split; [discriminate | reflexivity].
  - exists items, tick'. split; [exact Heq|].
    change (Z.min 20 (len [["date"; "description"; "article"; "activity";
                            "branch"; "detail"];
                           ["1/2/2017"; "Bill signed"; "http://x/1"; "signing";
                            "executive"; "Some detail"];
                           ["1/5/2017"; "Vote held"; "http://x/2"; "vote";
                            "legislative"; "Another detail"]] - 1))
      with 2%Z in Hcount.
    lia.
Defined.

(** An empty body: the error is "no records", the feed is as it was. *)
Lemma fromCSV_error_keeps_feed_witness :
  @fromCSV epoch_time scenario_feed "" 20 5
  = Returned (Some (errors_New "no records")) scenario_feed 5.
Proof.
  assert (H : @fromCSV epoch_time scenario_feed "" 20 5
              = Returned (Some (errors_New "no records")) scenario_feed 5)
    by (vm_compute; reflexivity).
  destruct (@fromCSV_error_keeps_feed epoch_time _ _ _ _ _ _ _ H)
    as (_ & _ & _).
  exact H.
Defined.

(** The scenario's spreadsheet, with -1 for the maximum. *)
Lemma fromCSV_negative_max_panics_witness :
  @fromCSV epoch_time new_rss scenario_csv (-1) 0
  = Panicked "makeslice: cap out of range".
Proof.
  apply (@fromCSV_negative_max_panics epoch_time scenario_csv _ (-1) new_rss 0
           csv_ReadAll_scenario).
  - vm_compute. discriminate.
  - reflexivity.
  - vm_compute. reflexivity.
Defined.

(** A handler with the flag set and nothing cached answers 404. *)
Lemma ServeHTTP_any_state_witness :
  sent_status (ServeHTTP (mkSheet "" true "" "") new_response "GET")
  = StatusNotFound.
Proof.
  apply (proj1 (proj2 (ServeHTTP_any_state (mkSheet "" true "" "") "GET")));
    reflexivity.
Defined.

(** After the refresh of the scenario, the body of a GET is the
    declaration and the whole feed. *)
Lemma ServeHTTP_serves_whole_feed_witness :
  @reachable epoch_time SHA1.pkg "KEY" scenario_process
  /\ (body (ServeHTTP (handler scenario_process) new_response "GET") = ""
      \/ exists r tick items tick',
           @fromCSV epoch_time new_rss r NumEntries tick
           = Returned None (mkRss "2.0" (Some (mkChannel Title URL Desc items)))
                      tick'
           /\ body (ServeHTTP (handler scenario_process) new_response "GET")
              = (xml_declaration
                 ++ xml_Marshal
                      (mkRss "2.0" (Some (mkChannel Title URL Desc items))))%string).
Proof.
  split; [exact scenario_reachable|].
  exact (@ServeHTTP_serves_whole_feed epoch_time SHA1.pkg "KEY" scenario_process
           "GET" scenario_reachable).
Defined.

(** Once the scenario is published, the exit of the process leaves the
    handler as it is. *)
Lemma published_is_stable_witness :
  @reachable epoch_time SHA1.pkg "KEY" scenario_process
  /\ handler (mkProcess (handler scenario_process) Exited 0)
     = handler scenario_process.
Proof.
  split; [exact scenario_reachable|].
  apply (proj2 (@published_is_stable epoch_time SHA1.pkg "KEY" scenario_process
                  (mkProcess (handler scenario_process) Exited 0)
                  scenario_reachable
                  (@step_exit epoch_time SHA1.pkg (handler scenario_process)
                              Finished 0))).
  reflexivity.
Defined.

(** The digest of the scenario's feed, in the process. *)
Lemma ready_cache_digest_witness :
  @reachable epoch_time SHA1.pkg "KEY" scenario_process
  /\ digest (handler scenario_process)
     = "2f e0 77 ae e3 8a 02 c5 35 d3 dc 81 b8 09 8a 5a b9 46 a7 21".
Proof.
  split; [exact scenario_reachable|].
  rewrite (proj2 (@ready_cache_digest epoch_time SHA1.pkg "KEY" scenario_process
                    scenario_reachable eq_refl)).
  vm_compute. reflexivity.
Defined.

(** A body without rows ends the process. *)
Lemma refresh_fatal_iff_witness :
  @refresh epoch_time SHA1.pkg (new_sheet2rss "") (FetchBody "") 0 = None.
Proof.
  apply (proj2 (@refresh_fatal_iff epoch_time SHA1.pkg (new_sheet2rss "")
                  (FetchBody "") 0
                  (fun r H => ltac:(injection H as <-; vm_compute; reflexivity)))).
  right. exists "". split; [reflexivity|]. right. vm_compute. lia.
Defined.

(** The refresh of the scenario publishes a feed of at most 20 items. *)
Lemma refresh_publishes_witness :
  exists items,
    (List.length items <= 20)%nat
    /\ cached (fold_left apply_store
                 (@refresh_stores SHA1.pkg (xml_Marshal scenario_feed))
                 (new_sheet2rss ""))
       = xml_Marshal (mkRss "2.0" (Some (mkChannel Title URL Desc items))).
Proof.
  assert (H : @refresh epoch_time SHA1.pkg (new_sheet2rss "")
                (FetchBody scenario_csv) 0
              = Some (fold_left apply_store
                        (@refresh_stores SHA1.pkg (xml_Marshal scenario_feed))
                        (new_sheet2rss ""), 0%nat))
    by (vm_compute; reflexivity).
  assert (Hfit : (Z.of_nat (String.length scenario_csv) < 2 ^ 63 - 1)%Z)
    by (vm_compute; reflexivity).
  destruct (@refresh_publishes epoch_time SHA1.pkg _ _ _ _ _ Hfit H)
    as (items & _ & Hcount & Hcached & _).
  exists items. split; [unfold NumEntries in Hcount; lia | exact Hcached].
Defined.
